(** * The IQ stanza codec of go-xmpp (iq.go)

    A shallow embedding of [iq.go]: the generic [Node], the stanza error
    [Err], the [IQ] envelope and the type registry, together with the part
    of Go's [encoding/xml] token interface the file is written against
    ([Decoder.Token], [Decoder.DecodeElement], [Encoder.EncodeToken]). *)

From Stdlib Require Import ZArith Ascii String List Lia.
From Stdlib Require Import DecimalString DecimalPos DecimalN DecimalZ.
From stdpp Require Import base option list strings gmap.

Local Open Scope string_scope.
Local Open Scope list_scope.

(** ** encoding/xml: names, attributes and tokens *)

Module xml.

(** [xml.Name]: a namespace URI and a local name.  Names are the ones
    [Decoder.Token] hands out, that is after prefixes were translated. *)
Record Name := mkName { Space : string; Local : string }.

Record Attr := mkAttr { AName : Name; Value : string }.

Record StartElement := mkStart { SName : Name; SAttr : list Attr }.

(** [xml.Token] is an interface holding one of these six types. *)
Inductive Token :=
| TStart (se : StartElement)
| TEnd (n : Name)
| TCharData (s : string)
| TComment (s : string)
| TProcInst (target inst : string)
| TDirective (s : string).

#[export] Instance Name_eq_dec : EqDecision Name.
Proof. solve_decision. Defined.
#[export] Instance Attr_eq_dec : EqDecision Attr.
Proof. solve_decision. Defined.
#[export] Instance StartElement_eq_dec : EqDecision StartElement.
Proof. solve_decision. Defined.
#[export] Instance Token_eq_dec : EqDecision Token.
Proof. solve_decision. Defined.

(** Go's [error] values that can reach the code of iq.go. *)
Inductive error :=
| EOF                      (* io.EOF *)
| SyntaxError              (* *xml.SyntaxError *)
| NotConsumed              (* "UnmarshalXML did not consume entire element" *)
| UnmarshalError           (* xml.UnmarshalError: expected element type ... *)
| EncodeError              (* start/end tag with no name, unbalanced end tag *)
| NilStack                 (* pushEOF without an open element: a Go panic *)
| OutOfFuel.               (* the bound of the model's loops; never Go's *)

(** One token of the input together with the bytes it was read from; the
    [innerxml] fields of encoding/xml are filled from these bytes. *)
Record RawToken := mkRaw { tok : Token; raw : string }.

(** The parsing stack of [xml.Decoder]: open elements and the end-of-file
    marks of [pushEOF]. *)
Inductive stkItem := StkStart (n : Name) | StkEOF.

(** [xml.Decoder]: the tokens still to be read, the parsing stack and the
    bytes read so far.  encoding/xml keeps these bytes only while a field
    tagged [innerxml] is being filled, and fills the field with the bytes
    between two offsets; here they are kept all along. *)
Record Decoder := mkDecoder {
  input : list RawToken;
  stk : list stkItem;
  saved : string
}.

(** [Decoder.Token] in strict mode. *)
Definition Token_ (d : Decoder) : Decoder * (Token + error) :=
  match stk d with
  | StkEOF :: _ => (d, inr EOF)
  | _ =>
    match input d with
    | [] => (d, inr (match stk d with [] => EOF | _ => SyntaxError end))
    | rt :: rest =>
      let d1 := mkDecoder rest (stk d) (saved d ++ raw rt) in
      match tok rt with
      | TStart se =>
          (mkDecoder rest (StkStart (SName se) :: stk d) (saved d1), inl (tok rt))
      | TEnd n =>
          match stk d with
          | StkStart n' :: s =>
              if decide (n' = n)
              then (mkDecoder rest s (saved d1), inl (tok rt))
              else (mkDecoder rest s (saved d1), inr SyntaxError)
          | _ => (d1, inr SyntaxError)
          end
      | _ => (d1, inl (tok rt))
      end
    end
  end.

(** [Decoder.pushEOF]: an end-of-file mark goes below the innermost open
    element. *)
Fixpoint pushEOF (s : list stkItem) : option (list stkItem) :=
  match s with
  | [] => None
  | StkStart n :: r => Some (StkStart n :: StkEOF :: r)
  | StkEOF :: r => option_map (cons StkEOF) (pushEOF r)
  end.

(** [Decoder.popEOF]. *)
Definition popEOF (d : Decoder) : Decoder * bool :=
  match stk d with
  | StkEOF :: s => (mkDecoder (input d) s (saved d), true)
  | _ => (d, false)
  end.

(** [Decoder.unmarshalInterface]: runs the [UnmarshalXML] method [f] of
    a value of type [A] and checks that it consumed its element. *)
Definition unmarshalInterface {A : Type}
    (f : A -> Decoder -> StartElement -> A * Decoder * option error)
    (val : A) (d : Decoder) (start : StartElement)
  : A * Decoder * option error :=
  match pushEOF (stk d) with
  | None => (val, d, Some NilStack)
  | Some s =>
    match f val (mkDecoder (input d) s (saved d)) start with
    | (val', d', Some e) => (val', fst (popEOF d'), Some e)
    | (val', d', None) =>
        let (d'', ok) := popEOF d' in
        if ok then (val', d'', None) else (val', d'', Some NotConsumed)
    end
  end.

(** [StartElement.End]. *)
Definition End (se : StartElement) : Name := SName se.

End xml.

Import xml.

(** ** Strings and integers of the Go runtime *)

(** [s[n:]] on the bytes of a string. *)
Fixpoint string_drop (n : nat) (s : string) : string :=
  match n, s with
  | O, _ => s
  | S n', String _ s' => string_drop n' s'
  | S _, EmptyString => EmptyString
  end.

(** Go's [int] on the 64-bit platforms go-xmpp is built for. *)
Definition int_min : Z := - 2 ^ 63.
Definition int_max : Z := 2 ^ 63 - 1.
Definition in_int (z : Z) : bool := (int_min <=? z)%Z && (z <=? int_max)%Z.

(** [strconv.Atoi]: an optional sign, then one or more decimal digits; the
    value has to fit an [int]. *)
Definition Atoi (s : string) : option Z :=
  let '(neg, digits) :=
    match s with
    | String "-" r => (true, r)
    | String "+" r => (false, r)
    | _ => (false, s)
    end in
  match digits with
  | EmptyString => None
  | _ =>
    match NilEmpty.uint_of_string digits with
    | None => None
    | Some u =>
        let v := Z.of_N (N.of_uint u) in
        let z := if neg then (- v)%Z else v in
        if in_int z then Some z else None
    end
  end.

(** [strconv.Itoa]. *)
Definition Itoa (z : Z) : string := NilZero.string_of_int (Z.to_int z).

(** ** Generic node *)

Set Warnings "-register-all".

(** [type Node struct]: XMLName, Attrs, Content (innerxml), Nodes (any). *)
Inductive Node := mkNode {
  XMLName : Name;
  Attrs : list Attr;
  Content : string;
  Nodes : list Node
}.

(** The zero value [Node{}], which [new(Node)] points to. *)
Definition Node_zero : Node := mkNode (mkName "" "") [] "" [].

Definition not_xmlns (a : Attr) : bool :=
  negb (String.eqb (Local (AName a)) "xmlns").

(** [Node.UnmarshalXML], and the loop of encoding/xml's default decoding of
    the method-less struct [node] that it ends in: XMLName takes the name
    of the start element, every child element is appended to Nodes through
    [Node.UnmarshalXML] again, and Content receives the bytes between the
    start tag and the end tag. *)
Fixpoint Node_UnmarshalXML (fuel : nat) (n : Node) (d : Decoder)
    (start : StartElement) {struct fuel} : Node * Decoder * option error :=
  match fuel with
  | O => (n, d, Some OutOfFuel)
  | S fuel' =>
    let n1 := mkNode (XMLName n) (Attrs n ++ List.filter not_xmlns (SAttr start))
                     (Content n) (Nodes n) in
    let n2 := mkNode (SName start) (Attrs n1) (Content n1) (Nodes n1) in
    unmarshal_node fuel' n2 d (String.length (saved d))
  end
with unmarshal_node (fuel : nat) (n : Node) (d : Decoder) (saveXMLIndex : nat)
    {struct fuel} : Node * Decoder * option error :=
  match fuel with
  | O => (n, d, Some OutOfFuel)
  | S fuel' =>
    match Token_ d with
    | (d1, inr e) => (n, d1, Some e)
    | (d1, inl (TStart t)) =>
        match unmarshalInterface (Node_UnmarshalXML fuel') Node_zero d1 t with
        | (_, d2, Some e) => (n, d2, Some e)
        | (c, d2, None) =>
            unmarshal_node fuel'
              (mkNode (XMLName n) (Attrs n) (Content n) (Nodes n ++ [c]))
              d2 saveXMLIndex
        end
    | (d1, inl (TEnd _)) =>
        (mkNode (XMLName n) (Attrs n) (string_drop saveXMLIndex (saved d)) (Nodes n),
         d1, None)
    | (d1, inl _) => unmarshal_node fuel' n d1 saveXMLIndex
    end
  end.

(** ** Encoder *)

(** [xml.Encoder]: the tokens written so far and the stack of open tags. *)
Record Encoder := mkEncoder { out : list Token; tags : list Name }.

(** [Encoder.EncodeToken] on the three kinds of token iq.go writes. *)
Definition EncodeToken (e : Encoder) (t : Token) : Encoder * option error :=
  match t with
  | TStart se =>
      if decide (Local (SName se) = "") then (e, Some EncodeError)
      else (mkEncoder (out e ++ [t]) (SName se :: tags e), None)
  | TEnd n =>
      if decide (Local n = "") then (e, Some EncodeError)
      else match tags e with
           | top :: r =>
               if decide (top = n) then (mkEncoder (out e ++ [t]) r, None)
               else (e, Some EncodeError)
           | [] => (e, Some EncodeError)
           end
  | _ => (mkEncoder (out e ++ [t]) (tags e), None)
  end.

(** [printer.marshalInterface]: a mark (the empty name) goes on the tag
    stack so that [MarshalXML] cannot close tags it did not open, and the
    tags it opened have to be closed when it returns. *)
Definition marshalInterface
    (f : Encoder -> StartElement -> Encoder * option error)
    (e : Encoder) (start : StartElement) : Encoder * option error :=
  let e0 := mkEncoder (out e) (mkName "" "" :: tags e) in
  match f e0 start with
  | (e1, Some err) => (e1, Some err)
  | (e1, None) =>
      if (length (tags e0) <? length (tags e1))%nat then (e1, Some EncodeError)
      else (mkEncoder (out e1)
              (skipn (length (tags e1) - length (tags e)) (tags e1)), None)
  end.

(** [Node.MarshalXML], with [e.EncodeElement(n.Nodes, ...)] unfolded:
    encoding/xml refuses a start element without a local name before it
    looks at the value; for a slice it marshals the elements one after the
    other, each through its [MarshalXML], and stops at the first error.
    The error of [EncodeElement] is dropped by [Node.MarshalXML]. *)
Fixpoint Node_MarshalXML (n : Node) (e : Encoder) (start : StartElement)
  : Encoder * option error :=
  let start := mkStart (XMLName n) (Attrs n) in
  let (e1, _) := EncodeToken e (TStart start) in
  let e2 :=
    if decide (Local (XMLName n) = "") then e1
    else
      (fix EncodeElement (ns : list Node) (e : Encoder) : Encoder :=
         match ns with
         | [] => e
         | c :: ns' =>
             match marshalInterface (Node_MarshalXML c) e (mkStart (XMLName n) []) with
             | (e', None) => EncodeElement ns' e'
             | (e', Some _) => e'
             end
         end) (Nodes n) e1 in
  EncodeToken e2 (TEnd (SName start)).

(** ** XMPP errors *)

(** [type Err struct]. *)
Record Err := mkErr {
  Err_XMLName : Name;
  Code : Z;
  Err_Type : string;
  Reason : string;
  Text : string
}.

Definition Err_zero : Err := mkErr (mkName "" "") 0 "" "" "".

Definition NSStanzas : string := "urn:ietf:params:xml:ns:xmpp-stanzas".

(** The body of the attribute loop of [Err.UnmarshalXML]. *)
Definition Err_attr (x : Err) (attr : Attr) : Err :=
  let x1 :=
    if String.eqb (Local (AName attr)) "type"
    then mkErr (Err_XMLName x) (Code x) (Value attr) (Reason x) (Text x)
    else x in
  if String.eqb (Local (AName attr)) "code"
  then match Atoi (Value attr) with
       | Some code => mkErr (Err_XMLName x1) code (Err_Type x1) (Reason x1) (Text x1)
       | None => x1
       end
  else x1.

(** What [Err.UnmarshalXML] does with a decoded child element [elt]. *)
Definition Err_child (x : Err) (elt : Node) : Err :=
  let textName := mkName NSStanzas "text" in
  if decide (XMLName elt = textName)
  then mkErr (Err_XMLName x) (Code x) (Err_Type x) (Reason x) (Content elt)
  else if decide (Space (XMLName elt) = NSStanzas)
  then mkErr (Err_XMLName x) (Code x) (Err_Type x) (Local (XMLName elt)) (Text x)
  else x.

(** The token loop of [Err.UnmarshalXML]. *)
Fixpoint Err_loop (fuel : nat) (x : Err) (d : Decoder) (start : StartElement)
  : Err * Decoder * option error :=
  match fuel with
  | O => (x, d, Some OutOfFuel)
  | S fuel' =>
    match Token_ d with
    | (d1, inr e) => (x, d1, Some e)
    | (d1, inl (TStart tt')) =>
        match unmarshalInterface (Node_UnmarshalXML fuel') Node_zero d1 tt' with
        | (_, d2, Some e) => (x, d2, Some e)
        | (elt, d2, None) => Err_loop fuel' (Err_child x elt) d2 start
        end
    | (d1, inl (TEnd tt')) =>
        if decide (tt' = End start) then (x, d1, None)
        else Err_loop fuel' x d1 start
    | (d1, inl _) => Err_loop fuel' x d1 start
    end
  end.

(** [Err.UnmarshalXML]. *)
Definition Err_UnmarshalXML (fuel : nat) (x : Err) (d : Decoder)
    (start : StartElement) : Err * Decoder * option error :=
  let x0 := mkErr (SName start) (Code x) (Err_Type x) (Reason x) (Text x) in
  Err_loop fuel (fold_left Err_attr (SAttr start) x0) d start.

(** [Err.MarshalXML].  The results of the calls to [EncodeToken] other than
    the last are dropped, as in the source. *)
Definition Err_MarshalXML (x : Err) (e : Encoder) (start : StartElement)
  : Encoder * option error :=
  if decide (Code x = 0%Z) then (e, None)
  else
    let start := mkStart (mkName "" "error") (SAttr start) in
    let code := mkAttr (mkName "" "code") (Itoa (Code x)) in
    let start := mkStart (SName start) (SAttr start ++ [code]) in
    let start :=
      if (0 <? String.length (Err_Type x))%nat
      then mkStart (SName start) (SAttr start ++ [mkAttr (mkName "" "type") (Err_Type x)])
      else start in
    let e := fst (EncodeToken e (TStart start)) in
    let e :=
      if negb (String.eqb (Reason x) "")
      then
        let reason := mkName NSStanzas (Reason x) in
        let e := fst (EncodeToken e (TStart (mkStart reason []))) in
        fst (EncodeToken e (TEnd reason))
      else e in
    let e :=
      if negb (String.eqb (Text x) "")
      then
        let text := mkName NSStanzas "text" in
        let e := fst (EncodeToken e (TStart (mkStart text []))) in
        let e := fst (EncodeToken e (TCharData (Text x))) in
        fst (EncodeToken e (TEnd text))
      else e in
    EncodeToken e (TEnd (SName start)).

(** ** Payloads decoded by encoding/xml's default struct decoding *)

(** What the default decoding of a struct reads of an element: its start
    tag and its child elements (none of the structs below has a field for
    character data). *)
Inductive Element := mkElement {
  EStart : StartElement;
  EKids : list Element
}.

(** The token loop of [Decoder.unmarshal] for a struct: every child element
    is read up to its end tag, either into the field it matches or by
    [Decoder.Skip]. *)
Fixpoint read_children (fuel : nat) (d : Decoder)
  : list Element * Decoder * option error :=
  match fuel with
  | O => ([], d, Some OutOfFuel)
  | S fuel' =>
    match Token_ d with
    | (d1, inr e) => ([], d1, Some e)
    | (d1, inl (TStart t)) =>
        match read_children fuel' d1 with
        | (_, d2, Some e) => ([], d2, Some e)
        | (kids, d2, None) =>
            match read_children fuel' d2 with
            | (sibs, d3, r) => (mkElement t kids :: sibs, d3, r)
            end
        end
    | (d1, inl (TEnd _)) => ([], d1, None)
    | (d1, inl _) => read_children fuel' d1
    end
  end.

(** A string field tagged [xml:"name,attr"]: every attribute of that local
    name is assigned to it in turn. *)
Definition attr_field (name : string) (attrs : list Attr) (old : string) : string :=
  fold_left (fun v a => if String.eqb (Local (AName a)) name then Value a else v)
            attrs old.

(** A field tagged [xml:"name"] of a struct whose XMLName tag carries the
    namespace [space]: it takes the child elements of that local name in
    that namespace (a field tag without namespace inherits the one of the
    XMLName tag; without any, every namespace matches). *)
Definition named (space name : string) (e : Element) : bool :=
  String.eqb (Local (SName (EStart e))) name
  && (String.eqb space "" || String.eqb (Space (SName (EStart e))) space).

Definition NSDiscoInfo : string := "http://jabber.org/protocol/disco#info".
Definition NSDiscoItems : string := "http://jabber.org/protocol/disco#items".

Record Identity := mkIdentity {
  Identity_XMLName : Name;
  Identity_Name : string;
  Category : string;
  Identity_Type : string
}.

Record Feature := mkFeature { Feature_XMLName : Name; Var : string }.

Record DiscoInfo := mkDiscoInfo {
  DiscoInfo_XMLName : Name;
  DiscoInfo_Node : string;
  DiscoInfo_Identity : Identity;
  Features : list Feature
}.

Record DiscoItem := mkDiscoItem {
  DiscoItem_XMLName : Name;
  DiscoItem_Name : string;
  JID : string;
  DiscoItem_Node : string
}.

Record DiscoItems := mkDiscoItems {
  DiscoItems_XMLName : Name;
  DiscoItems_Node : string;
  Items : list DiscoItem
}.

Definition DiscoInfo_zero : DiscoInfo :=
  mkDiscoInfo (mkName "" "") "" (mkIdentity (mkName "" "") "" "" "") [].
Definition DiscoItems_zero : DiscoItems := mkDiscoItems (mkName "" "") "" [].

Definition unmarshal_Identity (v : Identity) (e : Element) : Identity :=
  let a := SAttr (EStart e) in
  mkIdentity (SName (EStart e)) (attr_field "name" a (Identity_Name v))
             (attr_field "category" a (Category v))
             (attr_field "type" a (Identity_Type v)).

Definition unmarshal_Feature (e : Element) : Feature :=
  mkFeature (SName (EStart e)) (attr_field "var" (SAttr (EStart e)) "").

Definition unmarshal_DiscoItem (e : Element) : DiscoItem :=
  let a := SAttr (EStart e) in
  mkDiscoItem (SName (EStart e)) (attr_field "name" a "")
              (attr_field "jid" a "") (attr_field "node" a "").

(** The check of a tagged XMLName field against the start element. *)
Definition expect_name (space local : string) (start : StartElement) : bool :=
  String.eqb (Local (SName start)) local && String.eqb (Space (SName start)) space.

(** Default decoding into a [*DiscoInfo]. *)
Definition unmarshal_DiscoInfo (fuel : nat) (v : DiscoInfo) (d : Decoder)
    (start : StartElement) : DiscoInfo * Decoder * option error :=
  if negb (expect_name NSDiscoInfo "query" start) then (v, d, Some UnmarshalError)
  else
    let v1 := mkDiscoInfo (SName start)
                (attr_field "node" (SAttr start) (DiscoInfo_Node v))
                (DiscoInfo_Identity v) (Features v) in
    match read_children fuel d with
    | (_, d', Some e) => (v1, d', Some e)
    | (kids, d', None) =>
        (mkDiscoInfo (DiscoInfo_XMLName v1) (DiscoInfo_Node v1)
           (fold_left unmarshal_Identity (List.filter (named NSDiscoInfo "identity") kids)
                      (DiscoInfo_Identity v1))
           (Features v1 ++ map unmarshal_Feature (List.filter (named NSDiscoInfo "feature") kids)),
         d', None)
    end.

(** Default decoding into a [*DiscoItems]. *)
Definition unmarshal_DiscoItems (fuel : nat) (v : DiscoItems) (d : Decoder)
    (start : StartElement) : DiscoItems * Decoder * option error :=
  if negb (expect_name NSDiscoItems "query" start) then (v, d, Some UnmarshalError)
  else
    let v1 := mkDiscoItems (SName start)
                (attr_field "node" (SAttr start) (DiscoItems_Node v)) (Items v) in
    match read_children fuel d with
    | (_, d', Some e) => (v1, d', Some e)
    | (kids, d', None) =>
        (mkDiscoItems (DiscoItems_XMLName v1) (DiscoItems_Node v1)
           (Items v1 ++ map unmarshal_DiscoItem (List.filter (named NSDiscoItems "item") kids)),
         d', None)
    end.

(** Modelled from the spec: the struct types [BindBind] and
    [iot.ControlSet] are declared outside iq.go.  The spec lists them among
    the payload variants, registered for the resource-bind namespace /
    [bind] and the iot-control namespace / [set]; a value of either is kept
    as the element encoding/xml decoded it from. *)
Definition unmarshal_opaque (fuel : nat) (v : option Element) (d : Decoder)
    (start : StartElement) : option Element * Decoder * option error :=
  match read_children fuel d with
  | (_, d', Some e) => (v, d', Some e)
  | (kids, d', None) => (Some (mkElement start kids), d', None)
  end.

(** ** IQ payloads and the type registry *)

(** The values an [IQPayload] interface can hold: pointers to the types
    with an [IsIQPayload] method. *)
Inductive IQPayload :=
| PNode (n : Node)
| PErr (x : Err)
| PDiscoInfo (v : DiscoInfo)
| PDiscoItems (v : DiscoItems)
| PBindBind (v : option Element)
| PControlSet (v : option Element).

(** The [reflect.Type]s that can be put into the registry: the struct types
    of iq.go and the two registered from other files. *)
Inductive GoType :=
| TNode | TErr | TIQ | TAttr
| TDiscoInfo | TIdentity | TFeature | TDiscoItems | TDiscoItem
| TBindBind | TControlSet.

#[export] Instance GoType_eq_dec : EqDecision GoType.
Proof. solve_decision. Defined.

(** [reflect.New(payloadType).Interface()] followed by the type assertion
    [elt.(IQPayload)]: the zero value of the type when a pointer to it is
    an [IQPayload], nothing otherwise. *)
Definition new_IQPayload (t : GoType) : option IQPayload :=
  match t with
  | TNode => Some (PNode Node_zero)
  | TErr => Some (PErr Err_zero)
  | TDiscoInfo => Some (PDiscoInfo DiscoInfo_zero)
  | TDiscoItems => Some (PDiscoItems DiscoItems_zero)
  | TBindBind => Some (PBindBind None)
  | TControlSet => Some (PControlSet None)
  | TIQ | TAttr | TIdentity | TFeature | TDiscoItem => None
  end.

(** The dynamic type of a payload. *)
Definition type_of (p : IQPayload) : GoType :=
  match p with
  | PNode _ => TNode
  | PErr _ => TErr
  | PDiscoInfo _ => TDiscoInfo
  | PDiscoItems _ => TDiscoItems
  | PBindBind _ => TBindBind
  | PControlSet _ => TControlSet
  end.

(** [d.DecodeElement(elt, &tt)] for a payload: through [UnmarshalXML] for
    the two types that have one, by default decoding for the others. *)
Definition DecodeElement (fuel : nat) (elt : IQPayload) (d : Decoder)
    (start : StartElement) : IQPayload * Decoder * option error :=
  match elt with
  | PNode n =>
      let '(n', d', r) := unmarshalInterface (Node_UnmarshalXML fuel) n d start in
      (PNode n', d', r)
  | PErr x =>
      let '(x', d', r) := unmarshalInterface (Err_UnmarshalXML fuel) x d start in
      (PErr x', d', r)
  | PDiscoInfo v =>
      let '(v', d', r) := unmarshal_DiscoInfo fuel v d start in (PDiscoInfo v', d', r)
  | PDiscoItems v =>
      let '(v', d', r) := unmarshal_DiscoItems fuel v d start in (PDiscoItems v', d', r)
  | PBindBind v =>
      let '(v', d', r) := unmarshal_opaque fuel v d start in (PBindBind v', d', r)
  | PControlSet v =>
      let '(v', d', r) := unmarshal_opaque fuel v d start in (PControlSet v', d', r)
  end.

(** [typeRegistry] after [init]. *)
Definition typeRegistry : gmap string GoType :=
  <["urn:xmpp:iot:control set" := TControlSet]>
  (<["urn:ietf:params:xml:ns:xmpp-bind bind" := TBindBind]>
  (<["http://jabber.org/protocol/disco#items query" := TDiscoItems]>
  (<["http://jabber.org/protocol/disco#info query" := TDiscoInfo]> ∅))).

(** ** IQ packet *)

(** Modelled from the spec: [PacketAttrs] is declared outside iq.go; its
    fields are the ones [NewIQ] and [IQ.UnmarshalXML] assign. *)
Record PacketAttrs := mkPacketAttrs {
  Id : string;
  From : string;
  To : string;
  Pkt_Type : string;
  Lang : string
}.

(** [type IQ struct], with the embedded [PacketAttrs]. *)
Record IQ := mkIQ {
  IQ_XMLName : Name;
  Attrs_ : PacketAttrs;
  Payload : list IQPayload;
  RawXML : string;
  Error : Err
}.

Definition IQ_zero : IQ :=
  mkIQ (mkName "" "") (mkPacketAttrs "" "" "" "" "") [] "" Err_zero.

(** [NewIQ]. *)
Definition NewIQ (iqtype from to id lang : string) : IQ :=
  mkIQ (mkName "" "iq") (mkPacketAttrs id from to iqtype lang) [] "" Err_zero.

(** [IQ.AddPayload]. *)
Definition AddPayload (iq : IQ) (payload : IQPayload) : IQ :=
  mkIQ (IQ_XMLName iq) (Attrs_ iq) (Payload iq ++ [payload]) (RawXML iq) (Error iq).

Definition set_Type (iq : IQ) (v : string) : IQ :=
  let a := Attrs_ iq in
  mkIQ (IQ_XMLName iq) (mkPacketAttrs (Id a) (From a) (To a) v (Lang a))
       (Payload iq) (RawXML iq) (Error iq).
Definition set_From (iq : IQ) (v : string) : IQ :=
  let a := Attrs_ iq in
  mkIQ (IQ_XMLName iq) (mkPacketAttrs (Id a) v (To a) (Pkt_Type a) (Lang a))
       (Payload iq) (RawXML iq) (Error iq).
Definition set_To (iq : IQ) (v : string) : IQ :=
  let a := Attrs_ iq in
  mkIQ (IQ_XMLName iq) (mkPacketAttrs (Id a) (From a) v (Pkt_Type a) (Lang a))
       (Payload iq) (RawXML iq) (Error iq).
Definition set_Id (iq : IQ) (v : string) : IQ :=
  let a := Attrs_ iq in
  mkIQ (IQ_XMLName iq) (mkPacketAttrs v (From a) (To a) (Pkt_Type a) (Lang a))
       (Payload iq) (RawXML iq) (Error iq).
Definition set_Lang (iq : IQ) (v : string) : IQ :=
  let a := Attrs_ iq in
  mkIQ (IQ_XMLName iq) (mkPacketAttrs (Id a) (From a) (To a) (Pkt_Type a) v)
       (Payload iq) (RawXML iq) (Error iq).
Definition set_Error (iq : IQ) (v : Err) : IQ :=
  mkIQ (IQ_XMLName iq) (Attrs_ iq) (Payload iq) (RawXML iq) v.

(** [IQ.MakeError].  The receiver is passed by value: the method works on
    its own copy [iq] of the caller's value [caller], and the call leaves
    the pair (caller's value afterwards, returned value). *)
Definition MakeError_call (caller : IQ) (xerror : Err) : IQ * IQ :=
  let iq := caller in
  let from := From (Attrs_ iq) in
  let to := To (Attrs_ iq) in
  let iq := set_Type iq "error" in
  let iq := set_From iq to in
  let iq := set_To iq from in
  let iq := set_Error iq xerror in
  (caller, iq).

Definition MakeError (iq : IQ) (xerror : Err) : IQ := snd (MakeError_call iq xerror).

(** The body of the attribute loop of [IQ.UnmarshalXML]. *)
Definition IQ_attr (iq : IQ) (attr : Attr) : IQ :=
  let l := Local (AName attr) in
  let iq := if String.eqb l "id" then set_Id iq (Value attr) else iq in
  let iq := if String.eqb l "type" then set_Type iq (Value attr) else iq in
  let iq := if String.eqb l "to" then set_To iq (Value attr) else iq in
  let iq := if String.eqb l "from" then set_From iq (Value attr) else iq in
  if String.eqb l "lang" then set_Lang iq (Value attr) else iq.

(** The key of the registry: [tt.Name.Space + " " + tt.Name.Local]. *)
Definition payloadType (n : Name) : string := Space n ++ " " ++ Local n.

(** The value the loop of [IQ.UnmarshalXML] makes for a first-level start
    tag: a new value of the registered type, a new Node when there is none;
    [None] when the value is not an [IQPayload]. *)
Definition new_elt (reg : gmap string GoType) (n : Name) : option IQPayload :=
  match reg !! payloadType n with
  | Some payloadType => new_IQPayload payloadType
  | None => Some (PNode Node_zero)
  end.

(** The token loop of [IQ.UnmarshalXML]; [reg] is the content of the
    package variable [typeRegistry]. *)
Fixpoint IQ_loop (fuel : nat) (reg : gmap string GoType) (level : Z) (iq : IQ)
    (d : Decoder) (start : StartElement) : IQ * Decoder * option error :=
  match fuel with
  | O => (iq, d, Some OutOfFuel)
  | S fuel' =>
    match Token_ d with
    | (d1, inr e) => (iq, d1, Some e)
    | (d1, inl (TStart tt')) =>
        let level := (level + 1)%Z in
        if (level <=? 1)%Z then
          match new_elt reg (SName tt') with
          | Some iqPl =>
              match DecodeElement fuel' iqPl d1 tt' with
              | (_, d2, Some e) => (iq, d2, Some e)
              | (iqPl', d2, None) =>
                  IQ_loop fuel' reg level (AddPayload iq iqPl') d2 start
              end
          | None => IQ_loop fuel' reg level iq d1 start
          end
        else IQ_loop fuel' reg level iq d1 start
    | (d1, inl (TEnd tt')) =>
        let level := (level - 1)%Z in
        if decide (tt' = End start) then (iq, d1, None)
        else IQ_loop fuel' reg level iq d1 start
    | (d1, inl _) => IQ_loop fuel' reg level iq d1 start
    end
  end.

(** [IQ.UnmarshalXML]. *)
Definition IQ_UnmarshalXML (fuel : nat) (reg : gmap string GoType) (iq : IQ)
    (d : Decoder) (start : StartElement) : IQ * Decoder * option error :=
  let iq0 := mkIQ (SName start) (Attrs_ iq) (Payload iq) (RawXML iq) (Error iq) in
  IQ_loop fuel reg 0 (fold_left IQ_attr (SAttr start) iq0) d start.

(** The bound given to the loops of the model for an input of [k] tokens.
    A call of [Token] takes one unit and so does the call of an
    [UnmarshalXML] method; a method is called once per start tag read, so
    that two units per token, and two for the last calls, are never used
    up. *)
Definition enough_fuel (k : nat) : nat := 2 * k + 2.

(** [iqDecoder.decode]: [p.DecodeElement(&packet, &se)] on a fresh packet. *)
Definition iqDecoder_decode (reg : gmap string GoType) (p : Decoder)
    (se : StartElement) : IQ * Decoder * option error :=
  unmarshalInterface (IQ_UnmarshalXML (enough_fuel (length (input p))) reg)
                     IQ_zero p se.

(** ** Well-formed input: documents as trees *)

(** A piece of a document: an element with its content, or one of the
    tokens without structure; each with the bytes of its tags. *)
Inductive XML :=
| Elem (start : StartElement) (raw_start : string) (kids : list XML) (raw_end : string)
| CharData (s : string) (r : string)
| Comment (s : string) (r : string)
| ProcInst (target inst : string) (r : string)
| Directive (s : string) (r : string).

(** The tokens the decoder reads for a piece of a document. *)
Fixpoint tokens (t : XML) : list RawToken :=
  match t with
  | Elem start rs kids re =>
      mkRaw (TStart start) rs :: flat_map tokens kids ++ [mkRaw (TEnd (SName start)) re]
  | CharData s r => [mkRaw (TCharData s) r]
  | Comment s r => [mkRaw (TComment s) r]
  | ProcInst t i r => [mkRaw (TProcInst t i) r]
  | Directive s r => [mkRaw (TDirective s) r]
  end.

(** The bytes of a run of tokens. *)
Definition raws (l : list RawToken) : string :=
  fold_right (fun rt acc => (raw rt ++ acc)%string) "" l.

(** The [Node] that stands for an element: name, attributes whose local
    name is not xmlns, inner bytes and the nodes of the child elements. *)
Fixpoint nodes_of (t : XML) : list Node :=
  match t with
  | Elem start _ kids _ =>
      [mkNode (SName start) (List.filter not_xmlns (SAttr start))
              (raws (flat_map tokens kids)) (flat_map nodes_of kids)]
  | _ => []
  end.

(** The [Element] read by the default struct decoding. *)
Fixpoint elements_of (t : XML) : list Element :=
  match t with
  | Elem start _ kids _ => [mkElement start (flat_map elements_of kids)]
  | _ => []
  end.

Definition is_elem (t : XML) : bool :=
  match t with Elem _ _ _ _ => true | _ => false end.

(** The decoder as [Token] leaves it after the start tag of an element
    named [n]: content [body] and end tag ahead, then [rest]. *)
Definition inside (n : Name) (body : list XML) (raw_end : string)
    (rest : list RawToken) (s : list stkItem) (sv : string) : Decoder :=
  mkDecoder (flat_map tokens body ++ mkRaw (TEnd n) raw_end :: rest)
            (StkStart n :: s) sv.


(** ** Notions of the specification *)

(** A namespace declaration among the attributes of a start tag, as
    [Decoder.Token] recognises it: [xmlns="..."] or [xmlns:prefix="..."]. *)
Definition is_xmlns_decl (a : Attr) : bool :=
  String.eqb (Space (AName a)) "xmlns"
  || (String.eqb (Space (AName a)) "" && String.eqb (Local (AName a)) "xmlns").

(** "The recorded name matches the element's and the recorded attributes
    are the input attributes except the namespace declarations." *)
Definition records_all_but_xmlns_decls (start : StartElement) (n : Node) : Prop :=
  XMLName n = SName start /\
  forall a, In a (Attrs n) <-> In a (SAttr start) /\ is_xmlns_decl a = false.

Definition is_CharData (t : Token) : bool :=
  match t with TCharData _ => true | _ => false end.

Definition not_code (a : Attr) : bool :=
  negb (String.eqb (Local (AName a)) "code").

(** Does an element named [n] occur in a piece of a document? *)
Fixpoint mentions (n : Name) (t : XML) : bool :=
  match t with
  | Elem start _ kids _ => bool_decide (SName start = n) || existsb (mentions n) kids
  | _ => false
  end.

(** The value a payload [elt] holds once the element with start tag
    [start] and content [kids] was decoded into it. *)
Definition decoded (elt : IQPayload) (start : StartElement) (kids : list XML)
  : IQPayload :=
  match elt with
  | PNode n =>
      PNode (mkNode (SName start) (Attrs n ++ List.filter not_xmlns (SAttr start))
                    (raws (flat_map tokens kids)) (Nodes n ++ flat_map nodes_of kids))
  | PErr x =>
      PErr (fold_left Err_child (flat_map nodes_of kids)
              (fold_left Err_attr (SAttr start)
                 (mkErr (SName start) (Code x) (Err_Type x) (Reason x) (Text x))))
  | PDiscoInfo v =>
      let e := flat_map elements_of kids in
      PDiscoInfo
        (mkDiscoInfo (SName start)
           (attr_field "node" (SAttr start) (DiscoInfo_Node v))
           (fold_left unmarshal_Identity (List.filter (named NSDiscoInfo "identity") e)
                      (DiscoInfo_Identity v))
           (Features v ++ map unmarshal_Feature (List.filter (named NSDiscoInfo "feature") e)))
  | PDiscoItems v =>
      let e := flat_map elements_of kids in
      PDiscoItems
        (mkDiscoItems (SName start)
           (attr_field "node" (SAttr start) (DiscoItems_Node v))
           (Items v ++ map unmarshal_DiscoItem (List.filter (named NSDiscoItems "item") e)))
  | PBindBind _ => PBindBind (Some (mkElement start (flat_map elements_of kids)))
  | PControlSet _ => PControlSet (Some (mkElement start (flat_map elements_of kids)))
  end.

(** The start tags a payload accepts: the structs with a tagged XMLName
    field want that very name. *)
Definition accepts (elt : IQPayload) (start : StartElement) : bool :=
  match elt with
  | PDiscoInfo _ => expect_name NSDiscoInfo "query" start
  | PDiscoItems _ => expect_name NSDiscoItems "query" start
  | _ => true
  end.

(** The ways of cutting a string at one of its spaces. *)
Fixpoint splits (k : string) : list (string * string) :=
  match k with
  | EmptyString => []
  | String c k' =>
      (if Ascii.eqb c " " then [(EmptyString, k')] else [])
      ++ map (fun ab => (String c (fst ab), snd ab)) (splits k')
  end.

(** ** From the encoder to the decoder

    What [xml.Encoder] writes for the tokens of iq.go and what
    [xml.Decoder] reads back from these bytes. *)

(** The byte 34, the double quote of attribute values. *)
Definition dq : string := String (Ascii.ascii_of_nat 34) EmptyString.

(** The UTF-8 encoding of U+FFFD, which [escapeText] writes in place of
    what is not a character of XML. *)
Definition escFFFD : string :=
  String (ascii_of_nat 239) (String (ascii_of_nat 191) (String (ascii_of_nat 189) "")).

Definition between (lo hi n : nat) : bool := Nat.leb lo n && Nat.leb n hi.

(** [utf8.DecodeRune] and [isInCharacterRange] on a first byte [b0] of 128
    or more, followed by [r]: the width of the character when the bytes
    encode one that XML allows, the number of bytes to replace otherwise
    (one for a malformed encoding, three for U+FFFE and U+FFFF). *)
Inductive rune := RuneOk (width : nat) | RuneBad (width : nat).

Definition decode_multibyte (b0 : nat) (r : string) : rune :=
  if between 194 223 b0 then
    match r with
    | String c1 _ => if between 128 191 (nat_of_ascii c1) then RuneOk 2 else RuneBad 1
    | _ => RuneBad 1
    end
  else if between 224 239 b0 then
    match r with
    | String c1 (String c2 _) =>
        let b1 := nat_of_ascii c1 in
        let b2 := nat_of_ascii c2 in
        if between (if Nat.eqb b0 224 then 160 else 128)
                   (if Nat.eqb b0 237 then 159 else 191) b1
           && between 128 191 b2
        then if Nat.eqb b0 239 && Nat.eqb b1 191 && between 190 191 b2
             then RuneBad 3 else RuneOk 3
        else RuneBad 1
    | _ => RuneBad 1
    end
  else if between 240 244 b0 then
    match r with
    | String c1 (String c2 (String c3 _)) =>
        if between (if Nat.eqb b0 240 then 144 else 128)
                   (if Nat.eqb b0 244 then 143 else 191) (nat_of_ascii c1)
           && between 128 191 (nat_of_ascii c2)
           && between 128 191 (nat_of_ascii c3)
        then RuneOk 4 else RuneBad 1
    | _ => RuneBad 1
    end
  else RuneBad 1.

(** [escapeText] of encoding/xml on a 7-bit character; a line feed is
    escaped only when [escapeNewline] is set. *)
Definition escape_char (escapeNewline : bool) (c : ascii) : string :=
  let n := nat_of_ascii c in
  if Nat.eqb n 34 then "&#34;"
  else if Nat.eqb n 39 then "&#39;"
  else if Nat.eqb n 38 then "&amp;"
  else if Nat.eqb n 60 then "&lt;"
  else if Nat.eqb n 62 then "&gt;"
  else if Nat.eqb n 9 then "&#x9;"
  else if Nat.eqb n 10 then (if escapeNewline then "&#xA;" else String c EmptyString)
  else if Nat.eqb n 13 then "&#xD;"
  else if Nat.ltb n 32 then escFFFD
  else String c EmptyString.

(** The same character as the decoder reads it back. *)
Definition sanitize_char (c : ascii) : string :=
  let n := nat_of_ascii c in
  if Nat.ltb n 32 && negb (Nat.eqb n 9 || Nat.eqb n 10 || Nat.eqb n 13)
  then escFFFD else String c EmptyString.

(** Bytes of the current character still to be copied or dropped. *)
Inductive pending := Copy (k : nat) | Drop (k : nat).

(** [escapeText]. *)
Fixpoint escapeText_go (escapeNewline : bool) (p : pending) (s : string) : string :=
  match s with
  | EmptyString => EmptyString
  | String c r =>
      match p with
      | Copy (S k) => String c (escapeText_go escapeNewline (Copy k) r)
      | Drop (S k) => escapeText_go escapeNewline (Drop k) r
      | _ =>
          if Nat.ltb (nat_of_ascii c) 128
          then (escape_char escapeNewline c
                ++ escapeText_go escapeNewline (Copy 0) r)%string
          else match decode_multibyte (nat_of_ascii c) r with
               | RuneOk w => String c (escapeText_go escapeNewline (Copy (w - 1)) r)
               | RuneBad w =>
                   (escFFFD ++ escapeText_go escapeNewline (Drop (w - 1)) r)%string
               end
      end
  end.

Definition escapeText (escapeNewline : bool) (s : string) : string :=
  escapeText_go escapeNewline (Copy 0) s.

(** [printer.EscapeString], used for attribute values. *)
Definition EscapeString (s : string) : string := escapeText true s.

(** The text the decoder reads back from the escaped text: the text
    itself, with U+FFFD where [escapeText] wrote it. *)
Fixpoint sanitize_go (p : pending) (s : string) : string :=
  match s with
  | EmptyString => EmptyString
  | String c r =>
      match p with
      | Copy (S k) => String c (sanitize_go (Copy k) r)
      | Drop (S k) => sanitize_go (Drop k) r
      | _ =>
          if Nat.ltb (nat_of_ascii c) 128
          then (sanitize_char c ++ sanitize_go (Copy 0) r)%string
          else match decode_multibyte (nat_of_ascii c) r with
               | RuneOk w => String c (sanitize_go (Copy (w - 1)) r)
               | RuneBad w => (escFFFD ++ sanitize_go (Drop (w - 1)) r)%string
               end
      end
  end.

Definition sanitize (s : string) : string := sanitize_go (Copy 0) s.

Definition sanitize_attr (a : Attr) : Attr := mkAttr (AName a) (sanitize (Value a)).

(** Names the decoder reads back as one local name: a letter or an
    underscore, then letters, digits, [-], [_] and [.]. *)
Definition name_start_char (c : ascii) : bool :=
  let n := nat_of_ascii c in
  (Nat.leb 65 n && Nat.leb n 90) || (Nat.leb 97 n && Nat.leb n 122) || Nat.eqb n 95.

Definition name_char (c : ascii) : bool :=
  let n := nat_of_ascii c in
  name_start_char c || (Nat.leb 48 n && Nat.leb n 57) || Nat.eqb n 45 || Nat.eqb n 46.

Fixpoint name_chars (s : string) : bool :=
  match s with
  | EmptyString => true
  | String c s' => name_char c && name_chars s'
  end.

Definition xml_name (s : string) : bool :=
  match s with
  | EmptyString => false
  | String c s' => name_start_char c && name_chars s'
  end.

(** An attribute as iq.go writes them: no namespace, not a namespace
    declaration. *)
Definition plain_attr (a : Attr) : bool :=
  String.eqb (Space (AName a)) "" && xml_name (Local (AName a))
  && negb (String.eqb (Local (AName a)) "xmlns").

Definition print_attr (a : Attr) : string :=
  " " ++ Local (AName a) ++ "=" ++ dq ++ EscapeString (Value a) ++ dq.

(** [printer.writeStart] and [printer.writeEnd]. *)
Definition print_start (se : StartElement) : string :=
  "<" ++ Local (SName se)
  ++ (if String.eqb (Space (SName se)) "" then ""
      else " xmlns=" ++ dq ++ EscapeString (Space (SName se)) ++ dq)
  ++ fold_right (fun a acc => (print_attr a ++ acc)%string) "" (SAttr se)
  ++ ">".

Definition print_end (n : Name) : string := "</" ++ Local n ++ ">".

(** The namespace in force for an element written with the name of [se]
    inside the elements [open], with its local name: an element written
    with a namespace carries it as an [xmlns] attribute, one written
    without takes the namespace in force around it.  [open] holds these
    names for the elements open so far, innermost first. *)
Definition scope_name (open : list Name) (se : StartElement) : Name :=
  mkName (if String.eqb (Space (SName se)) ""
          then match open with p :: _ => Space p | [] => "" end
          else sanitize (Space (SName se)))
         (Local (SName se)).

(** [Decoder.translate] on the name of an element without prefix, [n]
    holding the namespace in force: the name is given that namespace,
    except the name [xmlns], which is handed out without any. *)
Definition translate (n : Name) : Name :=
  if String.eqb (Local n) "xmlns" then mkName "" (Local n) else n.

(** The name read back for an element written with the name of [se]
    inside the elements [open]. *)
Definition read_name (open : list Name) (se : StartElement) : Name :=
  translate (scope_name open se).

(** The start tag read back for the start tag [se]. *)
Definition read_start (open : list Name) (se : StartElement) : StartElement :=
  mkStart (read_name open se)
    ((if String.eqb (Space (SName se)) "" then []
      else [mkAttr (mkName "" "xmlns") (sanitize (Space (SName se)))])
     ++ map sanitize_attr (SAttr se)).

(** The tokens read back from what the encoder wrote for [toks]; [open]
    are the elements open so far, each with the namespace in force inside
    it.  [None] for what iq.go does not write: names that are not plain
    names, attributes with a namespace, tokens other than tags and
    character data. *)
Fixpoint wire (open : list Name) (toks : list Token) : option (list RawToken) :=
  match toks with
  | [] => Some []
  | TStart se :: r =>
      if xml_name (Local (SName se)) && forallb plain_attr (SAttr se)
      then
        option_map (cons (mkRaw (TStart (read_start open se)) (print_start se)))
                   (wire (scope_name open se :: open) r)
      else None
  | TEnd n :: r =>
      match open with
      | nm :: open' =>
          option_map (cons (mkRaw (TEnd (translate nm)) (print_end n))) (wire open' r)
      | [] => None
      end
  | TCharData s :: r =>
      option_map (cons (mkRaw (TCharData (sanitize s)) (escapeText false s)))
                 (wire open r)
  | _ => None
  end.

(** [Decoder.unmarshal] without a start element: the tokens before the
    first start tag are passed over. *)
Fixpoint find_start (fuel : nat) (d : Decoder) : Decoder * (StartElement + error) :=
  match fuel with
  | O => (d, inr OutOfFuel)
  | S fuel' =>
    match Token_ d with
    | (d1, inr e) => (d1, inr e)
    | (d1, inl (TStart se)) => (d1, inl se)
    | (d1, inl _) => find_start fuel' d1
    end
  end.

(** [xml.Marshal] of an [Err]: encoding/xml calls [MarshalXML] with a
    start element named after the type, without attributes; the method
    sets the name itself. *)
Definition Marshal_Err (x : Err) : Encoder * option error :=
  marshalInterface (Err_MarshalXML x) (mkEncoder [] [])
                   (mkStart (mkName "" "Err") []).

(** [xml.Unmarshal] into a fresh [Err]. *)
Definition Unmarshal_Err (input : list RawToken) : Err * option error :=
  let fuel := enough_fuel (length input) in
  match find_start fuel (mkDecoder input [] "") with
  | (_, inr e) => (Err_zero, Some e)
  | (d1, inl se) =>
      let '(x, _, r) := unmarshalInterface (Err_UnmarshalXML fuel) Err_zero d1 se in
      (x, r)
  end.

(** Encoding an [Err] and decoding what was written. *)
Definition decode_encode (x : Err) : option (Err * option error) :=
  match Marshal_Err x with
  | (enc, None) => option_map Unmarshal_Err (wire [] (out enc))
  | (_, Some _) => None
  end.

(** "Decoding the encoding of [x] gives an Err with the same Code, Type,
    Reason and Text." *)
Definition round_trips (x : Err) : Prop :=
  exists y, decode_encode x = Some (y, None) /\
            Code y = Code x /\ Err_Type y = Err_Type x /\
            Reason y = Reason x /\ Text y = Text x.






(** An error whose Reason is the word "xmlns". *)
Definition reason_xmlns_err : Err := mkErr (mkName "" "error") 500 "" "xmlns" "".

(** An error whose Text holds a character that is escaped. *)
Definition escaped_text_err : Err :=
  mkErr (mkName "" "error") 500 "wait" "internal-server-error" "a<b".


(** ** Sample inputs *)

(** [<iq><a/><b/></iq>]: the start tag of the iq element and its content. *)
Definition two_start : StartElement := mkStart (mkName "" "iq") [].
Definition two_children : list XML :=
  [Elem (mkStart (mkName "" "a") []) "<a/>" [] "";
   Elem (mkStart (mkName "" "b") []) "<b/>" [] ""].

(** [<iq><a/><query xmlns="http://jabber.org/protocol/disco#items"/></iq>]:
    the content of the iq element, a child without entry in the registry
    and then one with an entry. *)
Definition registered_second : list XML :=
  [Elem (mkStart (mkName "" "a") []) "<a/>" [] "";
   Elem (mkStart (mkName NSDiscoItems "query")
           [mkAttr (mkName "" "xmlns") NSDiscoItems])
        ("<query xmlns=" ++ dq ++ NSDiscoItems ++ dq ++ "/>") [] ""].

(** Scenario B of the spec:
    [<iq type="error" id="2"><error code="404" type="cancel"><item-not-found
    xmlns="urn:ietf:params:xml:ns:xmpp-stanzas"/></error></iq>]. *)
Definition scenarioB_start : StartElement :=
  mkStart (mkName "" "iq")
    [mkAttr (mkName "" "type") "error"; mkAttr (mkName "" "id") "2"].
Definition scenarioB_iq_raw : string :=
  "<iq type=" ++ dq ++ "error" ++ dq ++ " id=" ++ dq ++ "2" ++ dq ++ ">".
Definition scenarioB_error_start : StartElement :=
  mkStart (mkName "" "error")
    [mkAttr (mkName "" "code") "404"; mkAttr (mkName "" "type") "cancel"].
Definition scenarioB_reason : XML :=
  Elem (mkStart (mkName NSStanzas "item-not-found")
          [mkAttr (mkName "" "xmlns") NSStanzas])
       ("<item-not-found xmlns=" ++ dq ++ NSStanzas ++ dq ++ "/>") [] "".
Definition scenarioB_error : XML :=
  Elem scenarioB_error_start
       ("<error code=" ++ dq ++ "404" ++ dq ++ " type=" ++ dq ++ "cancel" ++ dq ++ ">")
       [scenarioB_reason] "</error>".

(** The start tag [<x xmlns="u" id="7">]. *)
Definition ex_start : StartElement :=
  mkStart (mkName "u" "x")
    [mkAttr (mkName "" "xmlns") "u"; mkAttr (mkName "" "id") "7"].

(** The element [<x xmlns:p="u" p:xmlns="v"/>]. *)
Definition decl_start : StartElement :=
  mkStart (mkName "" "x")
    [mkAttr (mkName "xmlns" "p") "u"; mkAttr (mkName "u" "xmlns") "v"].

(** The error of Scenario B. *)
Definition ex_err : Err := mkErr (mkName "" "error") 404 "cancel" "item-not-found" "".

(** Case analysis on the equality tests of the model. *)
Ltac case_decide_eq :=
  repeat match goal with
  | |- context [decide (?a = ?b)] =>
      destruct (decide (a = b)); try congruence; try contradiction
  end.


(** ** Further notions: what a Node is written as *)

(** The tokens of the element a Node stands for: its start tag, the tokens
    of its child nodes in order, its end tag. *)
Fixpoint node_tokens (n : Node) : list Token :=
  TStart (mkStart (XMLName n) (Attrs n))
    :: flat_map node_tokens (Nodes n) ++ [TEnd (XMLName n)].

(** Every node of the tree has a local name. *)
Fixpoint named_node (n : Node) : bool :=
  negb (String.eqb (Local (XMLName n)) "") && forallb named_node (Nodes n).

(** The tags of a piece of a document, the attributes without those whose
    local name is xmlns: what is left of it without character data,
    comments, processing instructions and directives. *)
Fixpoint skeleton (t : XML) : list Token :=
  match t with
  | Elem start _ kids _ =>
      TStart (mkStart (SName start) (List.filter not_xmlns (SAttr start)))
        :: flat_map skeleton kids ++ [TEnd (SName start)]
  | _ => []
  end.

(** Every element of a piece of a document has a local name. *)
Fixpoint named_xml (t : XML) : bool :=
  match t with
  | Elem start _ kids _ =>
      negb (String.eqb (Local (SName start)) "") && forallb named_xml kids
  | _ => true
  end.

(** The names of the child elements of a content, in document order. *)
Definition child_names (kids : list XML) : list Name :=
  flat_map (fun t => match t with Elem start _ _ _ => [SName start] | _ => [] end) kids.

(** ** Further notions: the children of an error element *)

(** An element of the stanza-error namespace. *)
Definition in_stanzas (t : XML) : bool :=
  match t with
  | Elem start _ _ _ => String.eqb (Space (SName start)) NSStanzas
  | _ => false
  end.

(** The [text] element of the stanza-error namespace. *)
Definition is_text (t : XML) : bool :=
  match t with
  | Elem start _ _ _ => bool_decide (SName start = mkName NSStanzas "text")
  | _ => false
  end.

(** An element of the stanza-error namespace other than [text]: it names
    the condition. *)
Definition is_reason (t : XML) : bool := in_stanzas t && negb (is_text t).

Definition is_code (a : Attr) : bool := String.eqb (Local (AName a)) "code".

(** ** Further notions: names and registry keys *)

(** A string without a space, as every local name the decoder reads. *)
Fixpoint no_space (s : string) : bool :=
  match s with
  | EmptyString => true
  | String c s' => negb (Ascii.eqb c " ") && no_space s'
  end.

(** ** Further notions: the children a struct field takes *)

(** The start tags of the child elements with the local name [name], in
    document order. *)
Definition local_children (name : string) (kids : list XML) : list StartElement :=
  flat_map (fun t => match t with
                     | Elem start _ _ _ =>
                         if String.eqb (Local (SName start)) name then [start] else []
                     | _ => []
                     end) kids.

(** A child element with the local name [name] is in the namespace [ns]. *)
Definition same_ns (ns name : string) (t : XML) : bool :=
  match t with
  | Elem start _ _ _ =>
      implb (String.eqb (Local (SName start)) name) (String.eqb (Space (SName start)) ns)
  | _ => true
  end.

(** The [DiscoItem] and the [Feature] read from a start tag. *)
Definition DiscoItem_of (start : StartElement) : DiscoItem :=
  mkDiscoItem (SName start) (attr_field "name" (SAttr start) "")
              (attr_field "jid" (SAttr start) "") (attr_field "node" (SAttr start) "").

Definition Feature_of (start : StartElement) : Feature :=
  mkFeature (SName start) (attr_field "var" (SAttr start) "").

(** A disco#items query with two items, and a disco#info query with two
    features. *)
Definition items_query : StartElement :=
  mkStart (mkName NSDiscoItems "query") [mkAttr (mkName "" "node") "music"].
Definition items_kids : list XML :=
  [Elem (mkStart (mkName NSDiscoItems "item") [mkAttr (mkName "" "jid") "a@b"]) "" [] "";
   CharData " " " ";
   Elem (mkStart (mkName NSDiscoItems "item") [mkAttr (mkName "" "jid") "c@d"]) "" [] ""].

Definition info_query : StartElement := mkStart (mkName NSDiscoInfo "query") [].
Definition info_kids : list XML :=
  [Elem (mkStart (mkName NSDiscoInfo "identity") [mkAttr (mkName "" "name") "j"]) "" [] "";
   Elem (mkStart (mkName NSDiscoInfo "feature") [mkAttr (mkName "" "var") "f1"]) "" [] "";
   Elem (mkStart (mkName NSDiscoInfo "feature") [mkAttr (mkName "" "var") "f2"]) "" [] ""].

(** ** Further notions: documents cut short *)

(** The content of an open element cut at the end of a token: complete
    pieces, then nothing more, or the start tag of a child and the cut
    content of that child. *)
Inductive Cut :=
| CutHere (before : list XML)
| CutIn (before : list XML) (start : StartElement) (raw_start : string) (inner : Cut).

Fixpoint tokens_cut (c : Cut) : list RawToken :=
  match c with
  | CutHere before => flat_map tokens before
  | CutIn before start rs inner =>
      flat_map tokens before ++ mkRaw (TStart start) rs :: tokens_cut inner
  end.

(** ** Further notions: a Node written and read again *)

(** An attribute that is read back as it was written. *)
Definition stable_attr (a : Attr) : bool :=
  plain_attr a && String.eqb (sanitize (Value a)) (Value a).


(** A Node that is read back with the names and attributes it was written
    with, below an element of the namespace [parent]: plain names and
    attributes, no node without namespace below one that has one (it
    would be read in the namespace of that one), and no node named
    [xmlns] in a namespace (it would be read without namespace). *)
Fixpoint writable (parent : string) (n : Node) : bool :=
  xml_name (Local (XMLName n))
  && String.eqb (sanitize (Space (XMLName n))) (Space (XMLName n))
  && (negb (String.eqb (Space (XMLName n)) "") || String.eqb parent "")
  && (negb (String.eqb (Local (XMLName n)) "xmlns") || String.eqb (Space (XMLName n)) "")
  && forallb stable_attr (Attrs n)
  && forallb (writable (Space (XMLName n))) (Nodes n).

(** A Node named [xmlns] in a namespace. *)
Definition xmlns_node : Node := mkNode (mkName "urn:x" "xmlns") [] "" [].



(** [xml.Marshal] of a Node (the start element is named after the type;
    the method sets the name itself), and [xml.Unmarshal] into a fresh
    Node. *)
Definition Marshal_Node (n : Node) : Encoder * option error :=
  marshalInterface (Node_MarshalXML n) (mkEncoder [] []) (mkStart (mkName "" "Node") []).

Definition Unmarshal_Node (input : list RawToken) : Node * option error :=
  let fuel := enough_fuel (length input) in
  match find_start fuel (mkDecoder input [] "") with
  | (_, inr e) => (Node_zero, Some e)
  | (d1, inl se) =>
      let '(n, _, r) := unmarshalInterface (Node_UnmarshalXML fuel) Node_zero d1 se in
      (n, r)
  end.

(** Encoding a Node and decoding what was written. *)
Definition decode_encode_Node (n : Node) : option (Node * option error) :=
  match Marshal_Node n with
  | (enc, None) => option_map Unmarshal_Node (wire [] (out enc))
  | (_, Some _) => None
  end.
(** ** Strings *)

Lemma append_cons (c : ascii) (s t : string) :
  (String c s ++ t)%string = String c (s ++ t)%string.
Proof. reflexivity. Qed.

Lemma append_nil_l (s : string) : ("" ++ s)%string = s.
Proof. reflexivity. Qed.

Lemma append_nil_r (s : string) : (s ++ "")%string = s.
Proof.
  induction s as [|c s IH]; [reflexivity|]. now rewrite append_cons, IH.
Qed.

Lemma append_assoc (a b c : string) : ((a ++ b) ++ c = a ++ (b ++ c))%string.
Proof.
  induction a as [|x a IH]; [reflexivity|]. now rewrite !append_cons, IH.
Qed.

Lemma string_drop_app (a b : string) : string_drop (String.length a) (a ++ b) = b.
Proof.
  induction a as [|x a IH]; [now destruct b|]. rewrite append_cons. exact IH.
Qed.


Lemma raws_app (l1 l2 : list RawToken) :
  raws (l1 ++ l2) = (raws l1 ++ raws l2)%string.
Proof.
  induction l1 as [|rt l1 IH]; [reflexivity|].
  cbn [app raws fold_right]. fold (raws (l1 ++ l2)). fold (raws l1).
  now rewrite IH, append_assoc.
Qed.

(** ** Decoding a well-formed element into a Node *)

Lemma pushEOF_start (n : Name) (s : list stkItem) :
  pushEOF (StkStart n :: s) = Some (StkStart n :: StkEOF :: s).
Proof. reflexivity. Qed.

(** The default decoding loop of [node] reads a well-formed content up to
    the end tag and appends the nodes of the child elements. *)
Lemma unmarshal_node_forest (fuel : nat) :
  forall (body : list XML) (n : Node) (name : Name) (re : string)
         (rest : list RawToken) (s : list stkItem) (sv : string) (idx : nat),
    length (flat_map tokens body) < fuel ->
    unmarshal_node fuel n (inside name body re rest s sv) idx =
    (mkNode (XMLName n) (Attrs n)
            (string_drop idx (sv ++ raws (flat_map tokens body)))
            (Nodes n ++ flat_map nodes_of body),
     mkDecoder rest s (sv ++ raws (flat_map tokens body) ++ re), None).
Proof.
  induction fuel as [fuel IH] using lt_wf_ind.
  intros body n name re rest s sv idx Hfuel.
  destruct fuel as [|fuel]; [lia|].
  destruct body as [|k ks].
  - cbn. destruct (decide (name = name)) as [_|Hn]; [|contradiction].
    now rewrite app_nil_r, append_nil_r.
  - destruct k as [start rs kids re'| c r | c r | t i r | c r].
    + (* a child element *)
      cbn [flat_map tokens] in Hfuel.
      rewrite length_app in Hfuel. cbn [length] in Hfuel.
      rewrite length_app in Hfuel. cbn [length] in Hfuel.
      unfold inside. cbn [flat_map tokens].
      cbn [unmarshal_node Token_ stk input tok raw saved app].
      unfold unmarshalInterface. cbn [stk input saved]. rewrite pushEOF_start.
      destruct fuel as [|fuel']; [lia|].
      cbn [Node_UnmarshalXML].
      rewrite <- !app_assoc. cbn [app].
      change (mkDecoder (flat_map tokens kids ++
                mkRaw (TEnd (SName start)) re' :: flat_map tokens ks ++
                mkRaw (TEnd name) re :: rest)
              (StkStart (SName start) :: StkEOF :: StkStart name :: s)
              (sv ++ rs))
        with (inside (SName start) kids re'
                (flat_map tokens ks ++ mkRaw (TEnd name) re :: rest)
                (StkEOF :: StkStart name :: s) (sv ++ rs)).
      rewrite (IH fuel') by lia.
      cbn [popEOF stk input saved].
      change (mkDecoder (flat_map tokens ks ++ mkRaw (TEnd name) re :: rest)
                (StkStart name :: s)
                ((sv ++ rs) ++ raws (flat_map tokens kids) ++ re')%string)
        with (inside name ks re rest s
                ((sv ++ rs) ++ raws (flat_map tokens kids) ++ re')%string).
      rewrite (IH (S fuel')) by lia.
      cbn [XMLName Attrs Nodes Content].
      rewrite string_drop_app.
      rewrite <- !app_assoc. cbn [app raws fold_right raw].
      rewrite !raws_app. cbn [raws fold_right raw].
      rewrite ?append_assoc, ?append_nil_r. cbn [String.append].
      rewrite ?append_assoc.
      reflexivity.
    + unfold inside. cbn. fold (inside name ks re rest s (sv ++ r)).
      rewrite IH by (cbn in Hfuel; lia). rewrite !append_assoc. reflexivity.
    + unfold inside. cbn. fold (inside name ks re rest s (sv ++ r)).
      rewrite IH by (cbn in Hfuel; lia). rewrite !append_assoc. reflexivity.
    + unfold inside. cbn. fold (inside name ks re rest s (sv ++ r)).
      rewrite IH by (cbn in Hfuel; lia). rewrite !append_assoc. reflexivity.
    + unfold inside. cbn. fold (inside name ks re rest s (sv ++ r)).
      rewrite IH by (cbn in Hfuel; lia). rewrite !append_assoc. reflexivity.
Qed.

Lemma Node_UnmarshalXML_elem (fuel : nat) (n : Node) (start : StartElement)
    (kids : list XML) (re : string) (rest : list RawToken)
    (s : list stkItem) (sv : string) :
  S (length (flat_map tokens kids)) < fuel ->
  Node_UnmarshalXML fuel n (inside (SName start) kids re rest s sv) start =
  (mkNode (SName start) (Attrs n ++ List.filter not_xmlns (SAttr start))
          (raws (flat_map tokens kids)) (Nodes n ++ flat_map nodes_of kids),
   mkDecoder rest s (sv ++ raws (flat_map tokens kids) ++ re), None).
Proof.
  intros Hfuel. destruct fuel as [|fuel]; [lia|].
  cbn [Node_UnmarshalXML].
  rewrite unmarshal_node_forest by lia.
  cbn [XMLName Attrs Nodes Content inside saved].
  now rewrite string_drop_app.
Qed.

(** [d.DecodeElement(elt, &tt)] for a fresh [Node], right after [Token]
    returned the start tag [tt]. *)
Lemma DecodeElement_Node_elem (fuel : nat) (start : StartElement)
    (kids : list XML) (re : string) (rest : list RawToken)
    (s : list stkItem) (sv : string) :
  S (length (flat_map tokens kids)) < fuel ->
  unmarshalInterface (Node_UnmarshalXML fuel) Node_zero
    (inside (SName start) kids re rest s sv) start =
  (mkNode (SName start) (List.filter not_xmlns (SAttr start))
          (raws (flat_map tokens kids)) (flat_map nodes_of kids),
   mkDecoder rest s (sv ++ raws (flat_map tokens kids) ++ re), None).
Proof.
  intros Hfuel. unfold unmarshalInterface.
  cbn [inside stk input saved]. rewrite pushEOF_start.
  change (mkDecoder (flat_map tokens kids ++ mkRaw (TEnd (SName start)) re :: rest)
            (StkStart (SName start) :: StkEOF :: s) sv)
    with (inside (SName start) kids re rest (StkEOF :: s) sv).
  rewrite Node_UnmarshalXML_elem by exact Hfuel.
  reflexivity.
Qed.

(** ** Decoding into the structs without [UnmarshalXML] *)

Lemma read_children_forest (fuel : nat) :
  forall (body : list XML) (name : Name) (re : string)
         (rest : list RawToken) (s : list stkItem) (sv : string),
    length (flat_map tokens body) < fuel ->
    read_children fuel (inside name body re rest s sv) =
    (flat_map elements_of body,
     mkDecoder rest s (sv ++ raws (flat_map tokens body) ++ re), None).
Proof.
  induction fuel as [fuel IH] using lt_wf_ind.
  intros body name re rest s sv Hfuel.
  destruct fuel as [|fuel]; [lia|].
  destruct body as [|k ks].
  - cbn. destruct (decide (name = name)) as [_|Hn]; [|contradiction].
    reflexivity.
  - destruct k as [start rs kids re'| c r | c r | t i r | c r].
    + cbn [flat_map tokens] in Hfuel.
      rewrite length_app in Hfuel. cbn [length] in Hfuel.
      rewrite length_app in Hfuel. cbn [length] in Hfuel.
      unfold inside. cbn [flat_map tokens].
      cbn [read_children Token_ stk input tok raw saved app].
      rewrite <- !app_assoc. cbn [app].
      change (mkDecoder (flat_map tokens kids ++
                mkRaw (TEnd (SName start)) re' :: flat_map tokens ks ++
                mkRaw (TEnd name) re :: rest)
              (StkStart (SName start) :: StkStart name :: s)
              (sv ++ rs))
        with (inside (SName start) kids re'
                (flat_map tokens ks ++ mkRaw (TEnd name) re :: rest)
                (StkStart name :: s) (sv ++ rs)).
      rewrite (IH fuel) by lia.
      change (mkDecoder (flat_map tokens ks ++ mkRaw (TEnd name) re :: rest)
                (StkStart name :: s)
                ((sv ++ rs) ++ raws (flat_map tokens kids) ++ re')%string)
        with (inside name ks re rest s
                ((sv ++ rs) ++ raws (flat_map tokens kids) ++ re')%string).
      rewrite (IH fuel) by lia.
      cbn [elements_of flat_map app raws fold_right raw].
      rewrite !raws_app. cbn [raws fold_right raw].
      rewrite ?append_assoc, ?append_nil_r.
      reflexivity.
    + unfold inside. cbn. fold (inside name ks re rest s (sv ++ r)).
      rewrite IH by (cbn in Hfuel; lia). rewrite !append_assoc. reflexivity.
    + unfold inside. cbn. fold (inside name ks re rest s (sv ++ r)).
      rewrite IH by (cbn in Hfuel; lia). rewrite !append_assoc. reflexivity.
    + unfold inside. cbn. fold (inside name ks re rest s (sv ++ r)).
      rewrite IH by (cbn in Hfuel; lia). rewrite !append_assoc. reflexivity.
    + unfold inside. cbn. fold (inside name ks re rest s (sv ++ r)).
      rewrite IH by (cbn in Hfuel; lia). rewrite !append_assoc. reflexivity.
Qed.

(** ** Generic node: what is recorded, what is written back *)

(** C7 (as amended): decoding a well-formed element into a fresh Node
    succeeds, consumes exactly the element, records the element's name and
    records, in order, exactly the attributes whose local name is not
    xmlns. *)
Theorem Node_UnmarshalXML_records (fuel : nat) (start : StartElement)
    (kids : list XML) (re : string) (rest : list RawToken)
    (s : list stkItem) (sv : string) :
  S (length (flat_map tokens kids)) < fuel ->
  exists n d',
    Node_UnmarshalXML fuel Node_zero (inside (SName start) kids re rest s sv) start
      = (n, d', None) /\
    input d' = rest /\
    XMLName n = SName start /\
    Attrs n = List.filter not_xmlns (SAttr start).
Proof.
  intros Hfuel. rewrite Node_UnmarshalXML_elem by exact Hfuel.
  eexists _, _. repeat split.
Qed.

Lemma Node_UnmarshalXML_records_witness :
  exists n d',
    Node_UnmarshalXML 3 Node_zero
      (inside (SName ex_start) [CharData "hi" "hi"] "</x>" [] [] "") ex_start
      = (n, d', None) /\
    input d' = [] /\
    XMLName n = SName ex_start /\
    Attrs n = List.filter not_xmlns (SAttr ex_start).
Proof.
  apply (Node_UnmarshalXML_records 3 ex_start [CharData "hi" "hi"] "</x>" [] [] "").
  cbn. lia.
Defined.

(** C7 as stated fails: of [<x xmlns:p="u" p:xmlns="v"/>] the Node keeps
    the namespace declaration [xmlns:p] and drops the ordinary attribute
    [p:xmlns]. *)
Lemma Node_UnmarshalXML_xmlns_counterexample :
  exists n d',
    Node_UnmarshalXML 2 Node_zero (inside (SName decl_start) [] "" [] [] "") decl_start
      = (n, d', None) /\
    Attrs n = [mkAttr (mkName "xmlns" "p") "u"] /\
    ~ records_all_but_xmlns_decls decl_start n.
Proof.
  eexists _, _. split; [reflexivity|]. split; [reflexivity|].
  intros [_ H].
  destruct (H (mkAttr (mkName "xmlns" "p") "u")) as [H1 _].
  cbn in H1. destruct H1 as [_ H1]; [now left | discriminate].
Qed.

(** C8: a Node with text content and no child nodes is written back as its
    start tag and its end tag only; no character data is emitted. *)
Theorem Node_MarshalXML_drops_text (n : Node) (e : Encoder) (start : StartElement) :
  Content n <> "" -> Nodes n = [] ->
  exists toks,
    out (fst (Node_MarshalXML n e start)) = out e ++ toks /\
    List.forallb (fun t => negb (is_CharData t)) toks = true /\
    (Local (XMLName n) <> "" ->
     toks = [TStart (mkStart (XMLName n) (Attrs n)); TEnd (XMLName n)] /\
     snd (Node_MarshalXML n e start) = None).
Proof.
  intros _ Hnodes. destruct n as [name attrs content nodes].
  cbn in Hnodes. subst nodes. cbn.
  destruct (decide (Local name = "")) as [He|Hne]; cbn.
  - rewrite He. cbn. exists []. rewrite app_nil_r. repeat split; intros; contradiction.
  - destruct (decide (Local name = "")) as [He|_]; [contradiction|].
    destruct (decide (name = name)) as [_|Hn]; [|contradiction].
    cbn. exists [TStart (mkStart name attrs); TEnd name].
    rewrite <- app_assoc. repeat split.
Qed.

Lemma Node_MarshalXML_drops_text_witness :
  exists toks,
    out (fst (Node_MarshalXML
                (mkNode (mkName "" "body") [] "hello" []) (mkEncoder [] [])
                (mkStart (mkName "" "") []))) = [] ++ toks /\
    List.forallb (fun t => negb (is_CharData t)) toks = true /\
    (Local (mkName "" "body") <> "" ->
     toks = [TStart (mkStart (mkName "" "body") []); TEnd (mkName "" "body")] /\
     snd (Node_MarshalXML
            (mkNode (mkName "" "body") [] "hello" []) (mkEncoder [] [])
            (mkStart (mkName "" "") [])) = None).
Proof.
  apply (Node_MarshalXML_drops_text
           (mkNode (mkName "" "body") [] "hello" []) (mkEncoder [] [])
           (mkStart (mkName "" "") [])).
  - discriminate.
  - reflexivity.
Defined.

(** ** Stanza error: encoding *)

(** C4: [Err.MarshalXML] writes nothing at all when Code is 0, and writes
    the error element, with its code attribute, when Code is not 0. *)
Theorem Err_MarshalXML_iff_code (x : Err) (e : Encoder) (start : StartElement) :
  (Code x = 0%Z -> Err_MarshalXML x e start = (e, None)) /\
  (Code x <> 0%Z ->
   exists attrs body e',
     Err_MarshalXML x e start = (e', None) /\
     out e' = out e ++ TStart (mkStart (mkName "" "error") attrs) :: body
                    ++ [TEnd (mkName "" "error")] /\
     In (mkAttr (mkName "" "code") (Itoa (Code x))) attrs /\
     tags e' = tags e).
Proof.
  split; intros Hc; unfold Err_MarshalXML.
  - destruct (decide (Code x = 0%Z)); [reflexivity | contradiction].
  - destruct (decide (Code x = 0%Z)) as [|_]; [contradiction|].
    set (attrs := SAttr (if (0 <? String.length (Err_Type x))%nat
                     then mkStart (mkName "" "error")
                            ((SAttr start ++ [mkAttr (mkName "" "code") (Itoa (Code x))])
                             ++ [mkAttr (mkName "" "type") (Err_Type x)])
                     else mkStart (mkName "" "error")
                            (SAttr start ++ [mkAttr (mkName "" "code") (Itoa (Code x))]))).
    exists attrs,
      ((if String.eqb (Reason x) "" then []
        else [TStart (mkStart (mkName NSStanzas (Reason x)) []);
              TEnd (mkName NSStanzas (Reason x))]) ++
       (if String.eqb (Text x) "" then []
        else [TStart (mkStart (mkName NSStanzas "text") []);
              TCharData (Text x); TEnd (mkName NSStanzas "text")])).
    subst attrs.
    destruct (0 <? String.length (Err_Type x))%nat;
      destruct (String.eqb_spec (Reason x) "") as [Hr|Hr];
      destruct (String.eqb_spec (Text x) "") as [Ht|Ht];
      cbn -[String.eqb]; case_decide_eq; cbn; case_decide_eq; cbn;
      eexists; (split; [reflexivity|]);
      rewrite <- ?app_assoc; cbn [app];
      (split; [reflexivity | split; [|reflexivity]]);
      rewrite ?in_app_iff; cbn; tauto.
Qed.

Lemma Err_MarshalXML_iff_code_witness :
  Err_MarshalXML Err_zero (mkEncoder [] []) (mkStart (mkName "" "error") [])
    = (mkEncoder [] [], None) /\
  exists attrs body e',
    Err_MarshalXML ex_err (mkEncoder [] []) (mkStart (mkName "" "error") [])
      = (e', None) /\
    out e' = [] ++ TStart (mkStart (mkName "" "error") attrs) :: body
                ++ [TEnd (mkName "" "error")] /\
    In (mkAttr (mkName "" "code") (Itoa (Code ex_err))) attrs /\
    tags e' = [].
Proof.
  split.
  - apply (Err_MarshalXML_iff_code Err_zero (mkEncoder [] [])
             (mkStart (mkName "" "error") [])).
    reflexivity.
  - apply (Err_MarshalXML_iff_code ex_err (mkEncoder [] [])
             (mkStart (mkName "" "error") [])).
    discriminate.
Defined.

(** ** IQ: error replies *)

(** C6: the reply of [MakeError] has From and To exchanged, type "error",
    the given error and the payload list of the request. *)
Theorem MakeError_reply (iq : IQ) (xerror : Err) :
  From (Attrs_ (MakeError iq xerror)) = To (Attrs_ iq) /\
  To (Attrs_ (MakeError iq xerror)) = From (Attrs_ iq) /\
  Pkt_Type (Attrs_ (MakeError iq xerror)) = "error" /\
  Error (MakeError iq xerror) = xerror /\
  Payload (MakeError iq xerror) = Payload iq.
Proof. repeat split. Qed.

(** C10: [MakeError] leaves the caller's IQ as it was, and the reply has
    the request's XMLName, Id, Lang, Payload and RawXML. *)
Theorem MakeError_frame (iq : IQ) (xerror : Err) :
  fst (MakeError_call iq xerror) = iq /\
  IQ_XMLName (MakeError iq xerror) = IQ_XMLName iq /\
  Id (Attrs_ (MakeError iq xerror)) = Id (Attrs_ iq) /\
  Lang (Attrs_ (MakeError iq xerror)) = Lang (Attrs_ iq) /\
  Payload (MakeError iq xerror) = Payload iq /\
  RawXML (MakeError iq xerror) = RawXML iq.
Proof. repeat split. Qed.

(** ** Stanza error: decoding *)

(** [Err.UnmarshalXML] on a well-formed content: every child element is
    decoded into a Node and looked at in turn. *)
Lemma Err_loop_forest (fuel : nat) :
  forall (body : list XML) (x : Err) (start : StartElement) (re : string)
         (rest : list RawToken) (s : list stkItem) (sv : string),
    S (length (flat_map tokens body)) < fuel ->
    Err_loop fuel x (inside (SName start) body re rest s sv) start =
    (fold_left Err_child (flat_map nodes_of body) x,
     mkDecoder rest s (sv ++ raws (flat_map tokens body) ++ re), None).
Proof.
  induction fuel as [|fuel IH]; [lia|].
  intros body x start re rest s sv Hfuel.
  destruct body as [|k ks].
  - cbn. destruct (decide (SName start = SName start)) as [_|Hn]; [|contradiction].
    unfold End. destruct (decide (SName start = SName start)); [|contradiction].
    reflexivity.
  - destruct k as [st rs kids re'| c r | c r | t i r | c r].
    + cbn [flat_map tokens] in Hfuel.
      rewrite length_app in Hfuel. cbn [length] in Hfuel.
      rewrite length_app in Hfuel. cbn [length] in Hfuel.
      unfold inside. cbn [flat_map tokens].
      cbn [Err_loop Token_ stk input tok raw saved app].
      rewrite <- !app_assoc. cbn [app].
      change (mkDecoder (flat_map tokens kids ++
                mkRaw (TEnd (SName st)) re' :: flat_map tokens ks ++
                mkRaw (TEnd (SName start)) re :: rest)
              (StkStart (SName st) :: StkStart (SName start) :: s)
              (sv ++ rs))
        with (inside (SName st) kids re'
                (flat_map tokens ks ++ mkRaw (TEnd (SName start)) re :: rest)
                (StkStart (SName start) :: s) (sv ++ rs)).
      rewrite DecodeElement_Node_elem by lia.
      change (mkDecoder (flat_map tokens ks ++ mkRaw (TEnd (SName start)) re :: rest)
                (StkStart (SName start) :: s)
                ((sv ++ rs) ++ raws (flat_map tokens kids) ++ re')%string)
        with (inside (SName start) ks re rest s
                ((sv ++ rs) ++ raws (flat_map tokens kids) ++ re')%string).
      rewrite IH by lia.
      cbn [nodes_of flat_map app fold_left raws fold_right raw].
      rewrite !raws_app. cbn [raws fold_right raw].
      rewrite ?append_assoc, ?append_nil_r.
      reflexivity.
    + unfold inside. cbn. fold (inside (SName start) ks re rest s (sv ++ r)).
      rewrite IH by (cbn in Hfuel; lia). rewrite !append_assoc. reflexivity.
    + unfold inside. cbn. fold (inside (SName start) ks re rest s (sv ++ r)).
      rewrite IH by (cbn in Hfuel; lia). rewrite !append_assoc. reflexivity.
    + unfold inside. cbn. fold (inside (SName start) ks re rest s (sv ++ r)).
      rewrite IH by (cbn in Hfuel; lia). rewrite !append_assoc. reflexivity.
    + unfold inside. cbn. fold (inside (SName start) ks re rest s (sv ++ r)).
      rewrite IH by (cbn in Hfuel; lia). rewrite !append_assoc. reflexivity.
Qed.

Lemma Err_child_Code (x : Err) (elt : Node) : Code (Err_child x elt) = Code x.
Proof. unfold Err_child. case_decide_eq; reflexivity. Qed.

Lemma fold_Err_child_Code (l : list Node) (x : Err) :
  Code (fold_left Err_child l x) = Code x.
Proof.
  revert x. induction l as [|n l IH]; intros x; [reflexivity|].
  cbn. now rewrite IH, Err_child_Code.
Qed.

Lemma Err_attr_malformed_code (x : Err) (a : Attr) :
  Local (AName a) = "code" -> Atoi (Value a) = None -> Err_attr x a = x.
Proof.
  intros Hl Ha. unfold Err_attr. rewrite Hl, Ha. cbn. reflexivity.
Qed.

Lemma fold_Err_attr_malformed_code (attrs : list Attr) (x : Err) :
  (forall a, In a attrs -> Local (AName a) = "code" -> Atoi (Value a) = None) ->
  fold_left Err_attr attrs x = fold_left Err_attr (List.filter not_code attrs) x.
Proof.
  revert x. induction attrs as [|a attrs IH]; intros x H; [reflexivity|].
  cbn [List.filter fold_left]. unfold not_code at 1.
  destruct (String.eqb_spec (Local (AName a)) "code") as [Hc|Hc]; cbn [negb].
  - rewrite Err_attr_malformed_code; [|exact Hc|apply H; [now left|exact Hc]].
    apply IH. intros b Hb. apply H. now right.
  - cbn [fold_left]. apply IH. intros b Hb. apply H. now right.
Qed.

Lemma Err_attr_not_code (x : Err) (a : Attr) :
  not_code a = true -> Code (Err_attr x a) = Code x.
Proof.
  unfold not_code, Err_attr. intros H.
  destruct (Local (AName a) =? "code")%string; [discriminate|].
  destruct (Local (AName a) =? "type")%string; reflexivity.
Qed.

Lemma fold_Err_attr_not_code (attrs : list Attr) (x : Err) :
  Code (fold_left Err_attr (List.filter not_code attrs) x) = Code x.
Proof.
  revert x. induction attrs as [|a attrs IH]; intros x; [reflexivity|].
  cbn [List.filter]. destruct (not_code a) eqn:Ha; [|apply IH].
  cbn [fold_left]. rewrite IH. now apply Err_attr_not_code.
Qed.

(** C9: when every code attribute of the error element is malformed,
    decoding behaves as if the element had no code attribute: on a
    well-formed element it returns without error and Code keeps the value
    it had, 0 for a fresh Err. *)
Theorem Err_UnmarshalXML_malformed_code (fuel : nat) (start : StartElement)
    (body : list XML) (re : string) (rest : list RawToken)
    (s : list stkItem) (sv : string) :
  (forall a, In a (SAttr start) -> Local (AName a) = "code" ->
             Atoi (Value a) = None) ->
  S (length (flat_map tokens body)) < fuel ->
  exists x' d',
    Err_UnmarshalXML fuel Err_zero (inside (SName start) body re rest s sv) start
      = (x', d', None) /\
    Code x' = 0%Z /\
    Err_UnmarshalXML fuel Err_zero (inside (SName start) body re rest s sv)
      (mkStart (SName start) (List.filter not_code (SAttr start)))
      = (x', d', None).
Proof.
  intros Hattrs Hfuel. unfold Err_UnmarshalXML.
  cbn [SName SAttr].
  change (inside (SName start) body re rest s sv)
    with (inside (SName (mkStart (SName start) (List.filter not_code (SAttr start))))
            body re rest s sv) at 2.
  rewrite !Err_loop_forest by exact Hfuel.
  rewrite <- fold_Err_attr_malformed_code by exact Hattrs.
  eexists _, _. split; [reflexivity|]. split; [|reflexivity].
  rewrite fold_Err_child_Code, fold_Err_attr_malformed_code by exact Hattrs.
  now rewrite fold_Err_attr_not_code.
Qed.

Lemma Err_UnmarshalXML_malformed_code_witness :
  exists x' d',
    Err_UnmarshalXML 2 Err_zero
      (inside (mkName "" "error") [] "</error>" [] [] "")
      (mkStart (mkName "" "error")
         [mkAttr (mkName "" "code") "4o4"; mkAttr (mkName "" "type") "cancel"])
      = (x', d', None) /\
    Code x' = 0%Z /\
    Err_UnmarshalXML 2 Err_zero
      (inside (mkName "" "error") [] "</error>" [] [] "")
      (mkStart (mkName "" "error") [mkAttr (mkName "" "type") "cancel"])
      = (x', d', None).
Proof.
  apply (Err_UnmarshalXML_malformed_code 2
           (mkStart (mkName "" "error")
              [mkAttr (mkName "" "code") "4o4"; mkAttr (mkName "" "type") "cancel"])
           [] "</error>" [] [] "").
  - intros a [<-|[<-|[]]] H; [reflexivity | discriminate H].
  - cbn. lia.
Defined.

(** ** Decoding one payload *)

(** [d.DecodeElement(elt, &tt)] for a payload that accepts the start tag:
    the element is consumed up to its end tag and the payload holds what
    [decoded] says. *)
Lemma DecodeElement_elem (fuel : nat) (elt : IQPayload) (start : StartElement)
    (kids : list XML) (re : string) (rest : list RawToken)
    (s : list stkItem) (sv : string) :
  accepts elt start = true ->
  S (length (flat_map tokens kids)) < fuel ->
  DecodeElement fuel elt (inside (SName start) kids re rest s sv) start =
  (decoded elt start kids,
   mkDecoder rest s (sv ++ raws (flat_map tokens kids) ++ re), None).
Proof.
  intros Hacc Hfuel.
  destruct elt as [n|x|v|v|v|v]; cbn [DecodeElement decoded accepts] in *.
  - unfold unmarshalInterface.
    cbn [inside stk input saved]. rewrite pushEOF_start.
    change (mkDecoder (flat_map tokens kids ++ mkRaw (TEnd (SName start)) re :: rest)
              (StkStart (SName start) :: StkEOF :: s) sv)
      with (inside (SName start) kids re rest (StkEOF :: s) sv).
    rewrite Node_UnmarshalXML_elem by exact Hfuel. reflexivity.
  - unfold unmarshalInterface, Err_UnmarshalXML.
    cbn [inside stk input saved]. rewrite pushEOF_start.
    change (mkDecoder (flat_map tokens kids ++ mkRaw (TEnd (SName start)) re :: rest)
              (StkStart (SName start) :: StkEOF :: s) sv)
      with (inside (SName start) kids re rest (StkEOF :: s) sv).
    rewrite Err_loop_forest by exact Hfuel. reflexivity.
  - unfold unmarshal_DiscoInfo. rewrite Hacc. cbn [negb].
    rewrite read_children_forest by lia. reflexivity.
  - unfold unmarshal_DiscoItems. rewrite Hacc. cbn [negb].
    rewrite read_children_forest by lia. reflexivity.
  - unfold unmarshal_opaque. rewrite read_children_forest by lia. reflexivity.
  - unfold unmarshal_opaque. rewrite read_children_forest by lia. reflexivity.
Qed.

(** ** The token loop of IQ.UnmarshalXML *)

Section IQ_loop.

Context (reg : gmap string GoType) (start : StartElement).

(** Tokens that are not tags are passed over. *)
Lemma IQ_loop_misc :
  forall (misc : list XML) (f : nat) (level : Z) (iq : IQ)
         (more : list RawToken) (nm : Name) (s : list stkItem) (sv : string),
    forallb (fun t => negb (is_elem t)) misc = true ->
    IQ_loop (length (flat_map tokens misc) + f) reg level iq
      (mkDecoder (flat_map tokens misc ++ more) (StkStart nm :: s) sv) start =
    IQ_loop f reg level iq
      (mkDecoder more (StkStart nm :: s) (sv ++ raws (flat_map tokens misc))) start.
Proof.
  induction misc as [|k ks IH]; intros f level iq more nm s sv Hm.
  - cbn. now rewrite append_nil_r.
  - cbn [forallb] in Hm. apply andb_prop in Hm as [Hk Hks].
    destruct k as [st rs kids re'| c r | c r | t i r | c r]; [discriminate Hk| | | |];
      cbn; rewrite IH by exact Hks; rewrite !append_assoc; reflexivity.
Qed.

(** Below the first level, elements are read tag by tag and nothing is
    decoded, as long as no end tag looks like the end of the iq element. *)
Lemma IQ_loop_skip (n : nat) :
  forall (forest : list XML) (f : nat) (level : Z) (iq : IQ)
         (more : list RawToken) (nm : Name) (s : list stkItem) (sv : string),
    length (flat_map tokens forest) <= n ->
    (1 <= level)%Z ->
    existsb (mentions (SName start)) forest = false ->
    IQ_loop (length (flat_map tokens forest) + f) reg level iq
      (mkDecoder (flat_map tokens forest ++ more) (StkStart nm :: s) sv) start =
    IQ_loop f reg level iq
      (mkDecoder more (StkStart nm :: s) (sv ++ raws (flat_map tokens forest))) start.
Proof.
  induction n as [|n IH]; intros forest f level iq more nm s sv Hn Hl Hm.
  - destruct forest as [|k ks].
    + cbn. now rewrite append_nil_r.
    + destruct k; cbn in Hn; lia.
  - destruct forest as [|k ks].
    + cbn. now rewrite append_nil_r.
    + cbn [existsb] in Hm. apply orb_false_elim in Hm as [Hk Hks].
      destruct k as [st rs kids re'| c r | c r | t i r | c r].
      * cbn [mentions] in Hk. apply orb_false_elim in Hk as [Hst Hkids].
        apply bool_decide_eq_false in Hst.
        cbn [flat_map tokens] in Hn |- *.
        rewrite !length_app in Hn. cbn [length] in Hn.
        rewrite !length_app in Hn. cbn [length] in Hn.
        cbn [app length]. rewrite !length_app. cbn [length].
        rewrite <- !app_assoc. cbn [app].
        cbn [Nat.add IQ_loop Token_ stk input tok raw saved].
        replace (level + 1 <=? 1)%Z with false by (symmetry; apply Z.leb_gt; lia).
        replace (length (flat_map tokens kids) + 1 + length (flat_map tokens ks) + f)
          with (length (flat_map tokens kids) + (1 + length (flat_map tokens ks) + f))
          by lia.
        rewrite (IH kids) by (try assumption; lia).
        cbn [Nat.add IQ_loop Token_ stk input tok raw saved].
        destruct (decide (SName st = SName st)) as [_|Hne]; [|contradiction].
        unfold End at 1.
        destruct (decide (SName st = SName start)) as [He|_]; [contradiction|].
        replace (level + 1 - 1)%Z with level by lia.
        rewrite (IH ks) by (try assumption; lia).
        cbn [raws fold_right raw]. rewrite !raws_app. cbn [raws fold_right raw].
        rewrite ?append_assoc, ?append_nil_r. reflexivity.
      * cbn in Hn. cbn. rewrite (IH ks) by (try assumption; lia).
        rewrite !append_assoc. reflexivity.
      * cbn in Hn. cbn. rewrite (IH ks) by (try assumption; lia).
        rewrite !append_assoc. reflexivity.
      * cbn in Hn. cbn. rewrite (IH ks) by (try assumption; lia).
        rewrite !append_assoc. reflexivity.
      * cbn in Hn. cbn. rewrite (IH ks) by (try assumption; lia).
        rewrite !append_assoc. reflexivity.
Qed.

End IQ_loop.

(** The first child element of the iq element is decoded into the payload
    made for its name; whatever follows it is read at level 2 and beyond,
    so that no further payload is appended. *)
Lemma IQ_loop_first_child (reg : gmap string GoType) (fuel : nat) (iq : IQ)
    (iqstart st : StartElement) (misc kids tail : list XML) (rs re' re : string)
    (rest : list RawToken) (s : list stkItem) (sv : string) (p0 : IQPayload) :
  forallb (fun t => negb (is_elem t)) misc = true ->
  existsb (mentions (SName iqstart)) tail = false ->
  new_elt reg (SName st) = Some p0 ->
  accepts p0 st = true ->
  length (flat_map tokens (misc ++ Elem st rs kids re' :: tail)) < fuel ->
  IQ_loop fuel reg 0 iq
    (inside (SName iqstart) (misc ++ Elem st rs kids re' :: tail) re rest s sv)
    iqstart =
  (AddPayload iq (decoded p0 st kids),
   mkDecoder rest s
     (sv ++ raws (flat_map tokens (misc ++ Elem st rs kids re' :: tail)) ++ re),
   None).
Proof.
  intros Hmisc Htail Hnew Hacc Hfuel.
  unfold inside.
  rewrite flat_map_app in Hfuel |- *. cbn [flat_map tokens] in Hfuel |- *.
  rewrite !length_app in Hfuel. cbn [length] in Hfuel.
  rewrite !length_app in Hfuel. cbn [length] in Hfuel.
  rewrite <- !app_assoc. cbn [app]. rewrite <- !app_assoc. cbn [app].
  replace fuel with (length (flat_map tokens misc) +
                     (fuel - length (flat_map tokens misc))) by lia.
  rewrite IQ_loop_misc by exact Hmisc.
  destruct (fuel - length (flat_map tokens misc)) as [|f1] eqn:Hf1; [lia|].
  cbn [IQ_loop Token_ stk input tok raw saved].
  change (0 + 1 <=? 1)%Z with true. cbn [Z.add]. rewrite Hnew.
  change (mkDecoder (flat_map tokens kids ++
            mkRaw (TEnd (SName st)) re' :: flat_map tokens tail ++
            mkRaw (TEnd (SName iqstart)) re :: rest)
          (StkStart (SName st) :: StkStart (SName iqstart) :: s)
          ((sv ++ raws (flat_map tokens misc)) ++ rs))
    with (inside (SName st) kids re'
            (flat_map tokens tail ++ mkRaw (TEnd (SName iqstart)) re :: rest)
            (StkStart (SName iqstart) :: s)
            ((sv ++ raws (flat_map tokens misc)) ++ rs)).
  rewrite DecodeElement_elem by (try exact Hacc; lia).
  replace f1 with (length (flat_map tokens tail) +
                   (f1 - length (flat_map tokens tail))) by lia.
  rewrite (IQ_loop_skip reg iqstart (length (flat_map tokens tail)))
    by (try exact Htail; lia).
  destruct (f1 - length (flat_map tokens tail)) as [|f2] eqn:Hf2; [lia|].
  cbn [IQ_loop Token_ stk input tok raw saved].
  destruct (decide (SName iqstart = SName iqstart)) as [_|Hne]; [|contradiction].
  unfold End.
  destruct (decide (SName iqstart = SName iqstart)) as [_|Hne]; [|contradiction].
  rewrite !raws_app. cbn [raws fold_right raw]. rewrite !raws_app.
  cbn [raws fold_right raw].
  rewrite ?append_assoc, ?append_nil_r. reflexivity.
Qed.

(** With no child element at all, no payload is appended. *)
Lemma IQ_loop_no_child (reg : gmap string GoType) (fuel : nat) (iq : IQ)
    (iqstart : StartElement) (misc : list XML) (re : string)
    (rest : list RawToken) (s : list stkItem) (sv : string) :
  forallb (fun t => negb (is_elem t)) misc = true ->
  length (flat_map tokens misc) < fuel ->
  IQ_loop fuel reg 0 iq (inside (SName iqstart) misc re rest s sv) iqstart =
  (iq, mkDecoder rest s (sv ++ raws (flat_map tokens misc) ++ re), None).
Proof.
  intros Hmisc Hfuel. unfold inside.
  replace fuel with (length (flat_map tokens misc) +
                     (fuel - length (flat_map tokens misc))) by lia.
  rewrite IQ_loop_misc by exact Hmisc.
  destruct (fuel - length (flat_map tokens misc)) as [|f1] eqn:Hf1; [lia|].
  cbn [IQ_loop Token_ stk input tok raw saved].
  destruct (decide (SName iqstart = SName iqstart)) as [_|Hne]; [|contradiction].
  unfold End.
  destruct (decide (SName iqstart = SName iqstart)) as [_|Hne]; [|contradiction].
  rewrite ?append_assoc. reflexivity.
Qed.

(** ** The registry *)

Lemma splits_complete (a b k : string) :
  (a ++ String " " b)%string = k -> In (a, b) (splits k).
Proof.
  revert k. induction a as [|c a IH]; intros k <-.
  - cbn. now left.
  - rewrite append_cons. cbn [splits]. apply in_or_app. right.
    apply in_map_iff. exists (a, b). split; [reflexivity|]. now apply IH.
Qed.

Lemma payloadType_inv (n : Name) (k : string) :
  payloadType n = k -> In (Space n, Local n) (splits k).
Proof. intros H. apply splits_complete. exact H. Qed.

(** The four keys of the registry name one element each. *)
Lemma typeRegistry_lookup (n : Name) (t : GoType) :
  typeRegistry !! payloadType n = Some t ->
  (n = mkName NSDiscoInfo "query" /\ t = TDiscoInfo) \/
  (n = mkName NSDiscoItems "query" /\ t = TDiscoItems) \/
  (n = mkName "urn:ietf:params:xml:ns:xmpp-bind" "bind" /\ t = TBindBind) \/
  (n = mkName "urn:xmpp:iot:control" "set" /\ t = TControlSet).
Proof.
  unfold typeRegistry. rewrite !lookup_insert.
  destruct n as [sp lo].
  repeat case_decide; intros Ht;
    try (rewrite lookup_empty in Ht; discriminate Ht);
    injection Ht as <-;
    match goal with
    | H : _ = payloadType _ |- _ =>
        symmetry in H; apply payloadType_inv in H; vm_compute in H;
        destruct H as [H|[]]; injection H as <- <-
    end; tauto.
Qed.

(** ** IQ.UnmarshalXML on whole elements *)

Lemma IQ_attr_Payload (iq : IQ) (a : Attr) : Payload (IQ_attr iq a) = Payload iq.
Proof.
  unfold IQ_attr.
  repeat match goal with
         | |- context [String.eqb ?x ?y] => destruct (String.eqb x y)
         end; reflexivity.
Qed.

Lemma fold_IQ_attr_Payload (attrs : list Attr) (iq : IQ) :
  Payload (fold_left IQ_attr attrs iq) = Payload iq.
Proof.
  revert iq. induction attrs as [|a attrs IH]; intros iq; [reflexivity|].
  cbn. now rewrite IH, IQ_attr_Payload.
Qed.


(** What the shipped registry makes for a name, and that it accepts the
    start tag. *)
Lemma new_elt_typeRegistry (st : StartElement) :
  exists p0,
    new_elt typeRegistry (SName st) = Some p0 /\
    accepts p0 st = true /\
    type_of p0 = match typeRegistry !! payloadType (SName st) with
                 | Some t => t
                 | None => TNode
                 end /\
    typeRegistry !! payloadType (SName st) <> Some TNode.
Proof.
  unfold new_elt.
  destruct (typeRegistry !! payloadType (SName st)) as [t|] eqn:Hl.
  - apply typeRegistry_lookup in Hl.
    destruct st as [n attrs]. cbn [SName] in *.
    destruct Hl as [[-> ->]|[[-> ->]|[[-> ->]|[-> ->]]]];
      eexists; (split; [reflexivity|]); repeat split; discriminate.
  - exists (PNode Node_zero). repeat split. discriminate.
Qed.



(** C3 at [<iq><a/><query xmlns="http://jabber.org/protocol/disco#items"/></iq>]:
    the second child element has the name registered for DiscoItems, and
    nothing is made for it, neither a DiscoItems nor a Node: the payload
    list holds the Node of [a] alone.  Decoding [a] consumed its end tag,
    so [level] is still 1 when the start tag of [query] is read (the defect
    of C1). *)
Theorem IQ_UnmarshalXML_second_child :
  typeRegistry !! payloadType (mkName NSDiscoItems "query") = Some TDiscoItems /\
  child_names registered_second = [mkName "" "a"; mkName NSDiscoItems "query"] /\
  exists d',
    iqDecoder_decode typeRegistry
      (inside (SName two_start) registered_second "</iq>" [] [] "<iq>") two_start
    = (mkIQ (mkName "" "iq") (mkPacketAttrs "" "" "" "" "")
            [PNode (mkNode (mkName "" "a") [] "" [])] "" Err_zero, d', None) /\
    input d' = [].
Proof. split; [reflexivity|]. split; [reflexivity|]. eexists. split; reflexivity. Qed.

(** C1 at [<iq><a/><b/></iq>]: the iq element has two child elements, and
    only the first one is in the payload list; decoding [a] consumed its
    end tag, so [level] is still 1 when the start tag of [b] is read. *)
Theorem IQ_UnmarshalXML_two_children :
  length (List.filter is_elem two_children) = 2 /\
  iqDecoder_decode typeRegistry
    (inside (SName two_start) two_children "</iq>" [] [] "<iq>") two_start
  = (mkIQ (mkName "" "iq") (mkPacketAttrs "" "" "" "" "")
          [PNode (mkNode (mkName "" "a") [] "" [])] "" Err_zero,
     mkDecoder [] [] "<iq><a/><b/></iq>", None).
Proof. split; reflexivity. Qed.

(** ** strconv: Itoa then Atoi *)




(** ** Escaping *)





(** ** Stanza error: what is written and what is read back *)













(** An element named [xmlns] is read back without namespace, whatever
    its [xmlns] attribute says: a Reason "xmlns" is written as such an
    element, which [Err.UnmarshalXML] then passes over. *)
Lemma Err_round_trip_xmlns_reason :
  decode_encode reason_xmlns_err
    = Some (mkErr (mkName "" "error") 500 "" "" "", None) /\
  ~ round_trips reason_xmlns_err.
Proof.
  split; [reflexivity|].
  intros (y & Hy & _ & _ & Hr & _).
  vm_compute in Hy. injection Hy as <-. discriminate Hr.
Qed.

(** The Text is taken from the bytes of the [text] element, not from its
    character data: what [EncodeToken] escaped comes back escaped. *)
Lemma Err_round_trip_escaped_text :
  decode_encode escaped_text_err
    = Some (mkErr (mkName "" "error") 500 "wait" "internal-server-error"
                  "a&lt;b", None) /\
  ~ round_trips escaped_text_err.
Proof.
  split; [reflexivity|].
  intros (y & Hy & _ & _ & _ & Ht).
  vm_compute in Hy. injection Hy as <-. discriminate Ht.
Qed.

(** ** Scenario B *)

(** C2 at the input of Scenario B: [IQ.UnmarshalXML] has no case for the
    [error] child.  The child is decoded like any unregistered payload
    into a Node; the Error field of the IQ keeps its zero value. *)
Theorem IQ_UnmarshalXML_scenarioB :
  exists n d',
    iqDecoder_decode typeRegistry
      (inside (SName scenarioB_start) [scenarioB_error] "</iq>" [] []
              scenarioB_iq_raw)
      scenarioB_start
    = (mkIQ (mkName "" "iq") (mkPacketAttrs "2" "" "" "error" "")
            [PNode n] "" Err_zero, d', None) /\
    XMLName n = mkName "" "error" /\
    Code Err_zero = 0%Z /\ Err_Type Err_zero = "" /\ Reason Err_zero = "".
Proof. eexists _, _. repeat split. Qed.

(** [Err.UnmarshalXML] itself reads the values of Scenario B from the
    [error] element. *)
Lemma Err_UnmarshalXML_scenarioB :
  Unmarshal_Err (tokens scenarioB_error)
  = (mkErr (mkName "" "error") 404 "cancel" "item-not-found" "", None).
Proof. reflexivity. Qed.

(** Only the first child element of an iq element is decoded, whatever
    follows it. *)
Lemma IQ_UnmarshalXML_first_child_only (iqstart st : StartElement)
    (misc kids tail : list XML) (rs re' re : string)
    (rest : list RawToken) (s : list stkItem) (sv : string) :
  forallb (fun t => negb (is_elem t)) misc = true ->
  existsb (mentions (SName iqstart)) tail = false ->
  exists iq d',
    iqDecoder_decode typeRegistry
      (inside (SName iqstart) (misc ++ Elem st rs kids re' :: tail) re rest s sv)
      iqstart = (iq, d', None) /\
    length (Payload iq) = 1.
Proof.
  intros Hmisc Htail.
  destruct (new_elt_typeRegistry st) as (p0 & Hnew & Hacc & _).
  unfold iqDecoder_decode, enough_fuel, unmarshalInterface, IQ_UnmarshalXML.
  cbn [inside stk input saved]. rewrite pushEOF_start.
  change (mkDecoder (flat_map tokens (misc ++ Elem st rs kids re' :: tail) ++
            mkRaw (TEnd (SName iqstart)) re :: rest)
            (StkStart (SName iqstart) :: StkEOF :: s) sv)
    with (inside (SName iqstart) (misc ++ Elem st rs kids re' :: tail) re rest
            (StkEOF :: s) sv).
  rewrite (IQ_loop_first_child typeRegistry _ _ iqstart st misc kids tail
             rs re' re rest (StkEOF :: s) sv p0 Hmisc Htail Hnew Hacc)
    by (rewrite length_app; cbn [length]; lia).
  cbn [popEOF stk input saved].
  eexists _, _. split; [reflexivity|].
  cbn [AddPayload Payload]. rewrite length_app, fold_IQ_attr_Payload. reflexivity.
Qed.

(** ** Induction on nodes and on documents *)

Lemma Node_induction (P : Node -> Prop) :
  (forall name attrs content nodes,
      Forall P nodes -> P (mkNode name attrs content nodes)) ->
  forall n, P n.
Proof.
  intros H. fix IH 1. intros [name attrs content nodes].
  apply H. induction nodes as [|c cs IHcs];
    [constructor | constructor; [apply IH | exact IHcs]].
Qed.

Lemma XML_induction (P : XML -> Prop) :
  (forall start rs kids re, Forall P kids -> P (Elem start rs kids re)) ->
  (forall s r, P (CharData s r)) ->
  (forall s r, P (Comment s r)) ->
  (forall t i r, P (ProcInst t i r)) ->
  (forall s r, P (Directive s r)) ->
  forall t, P t.
Proof.
  intros HE HC HM HP HD. fix IH 1.
  intros [start rs kids re| | | |]; [| apply HC | apply HM | apply HP | apply HD].
  apply HE. induction kids as [|k ks IHks];
    [constructor | constructor; [apply IH | exact IHks]].
Qed.

(** ** Writing a Node *)

(** One call of [EncodeToken] for a start tag with a name. *)
Lemma EncodeToken_start (e : Encoder) (se : StartElement) :
  Local (SName se) <> "" ->
  EncodeToken e (TStart se) = (mkEncoder (out e ++ [TStart se]) (SName se :: tags e), None).
Proof. intros H. cbn. destruct (decide (Local (SName se) = "")); [contradiction|reflexivity]. Qed.

(** One call of [EncodeToken] for the end tag of the innermost open tag. *)
Lemma EncodeToken_end (o : list Token) (n : Name) (ts : list Name) :
  Local n <> "" ->
  EncodeToken (mkEncoder o (n :: ts)) (TEnd n) = (mkEncoder (o ++ [TEnd n]) ts, None).
Proof.
  intros H. cbn. destruct (decide (Local n = "")); [contradiction|].
  destruct (decide (n = n)); [reflexivity|contradiction].
Qed.

Lemma Node_MarshalXML_named (n : Node) :
  named_node n = true ->
  forall (e : Encoder) (start : StartElement),
    Node_MarshalXML n e start = (mkEncoder (out e ++ node_tokens n) (tags e), None).
Proof.
  induction n as [name attrs content nodes IH] using Node_induction.
  cbn [named_node XMLName Nodes]. intros Hn e start.
  apply andb_prop in Hn as [Hname Hnodes].
  apply negb_true_iff, String.eqb_neq in Hname.
  cbn [Node_MarshalXML XMLName Attrs Nodes node_tokens].
  rewrite EncodeToken_start by exact Hname. cbn [SName].
  destruct (decide (Local name = "")) as [E|_]; [contradiction|].
  set (e1 := mkEncoder (out e ++ [TStart (mkStart name attrs)]) (name :: tags e)).
  assert (Hkids : forall e0 : Encoder,
    (fix EncodeElement (ns : list Node) (e2 : Encoder) {struct ns} : Encoder :=
       match ns with
       | [] => e2
       | c :: ns' =>
           match marshalInterface (Node_MarshalXML c) e2 (mkStart name []) with
           | (e', None) => EncodeElement ns' e'
           | (e', Some _) => e'
           end
       end) nodes e0
    = mkEncoder (out e0 ++ flat_map node_tokens nodes) (tags e0)).
  { clear e1. induction nodes as [|c cs IHcs]; intros e0.
    - cbn. rewrite app_nil_r. now destruct e0.
    - cbn [forallb] in Hnodes. apply andb_prop in Hnodes as [Hc Hcs].
      inversion IH as [|? ? IHc IHrest]; subst.
      unfold marshalInterface. rewrite (IHc Hc). cbn [tags out length].
      replace (S (length (tags e0)) <? S (length (tags e0)))%nat with false
        by (symmetry; apply Nat.ltb_irrefl).
      replace (S (length (tags e0)) - length (tags e0)) with 1 by lia.
      cbn [skipn]. rewrite (IHcs IHrest Hcs). cbn [out tags flat_map].
      now rewrite app_assoc. }
  rewrite Hkids. subst e1. cbn [out tags].
  rewrite EncodeToken_end by exact Hname.
  rewrite <- !app_assoc. reflexivity.
Qed.

Lemma node_tokens_no_CharData (n : Node) :
  forallb (fun t => negb (is_CharData t)) (node_tokens n) = true.
Proof.
  induction n as [name attrs content nodes IH] using Node_induction.
  cbn [node_tokens Nodes XMLName forallb is_CharData negb andb].
  rewrite forallb_app. cbn [forallb is_CharData negb andb]. rewrite andb_true_r.
  induction nodes as [|c cs IHcs]; [reflexivity|].
  inversion IH as [|? ? Hc Hcs]; subst.
  cbn [flat_map]. rewrite forallb_app, Hc. cbn [andb]. now apply IHcs.
Qed.

(** X1: a Node all of whose nodes have a local name is written without
    error as its start tag, its child nodes in order and its end tag; no
    character data is written, and the open tags of the encoder are the
    same afterwards. *)
Theorem Node_MarshalXML_tags (n : Node) (e : Encoder) (start : StartElement) :
  named_node n = true ->
  Node_MarshalXML n e start = (mkEncoder (out e ++ node_tokens n) (tags e), None) /\
  forallb (fun t => negb (is_CharData t)) (node_tokens n) = true.
Proof.
  intros H. split; [now apply Node_MarshalXML_named | apply node_tokens_no_CharData].
Qed.

Lemma Node_MarshalXML_tags_witness :
  Node_MarshalXML
    (mkNode (mkName "" "a") [] "x<b/>" [mkNode (mkName "" "b") [] "" []])
    (mkEncoder [] []) (mkStart (mkName "" "") [])
  = (mkEncoder ([] ++ node_tokens
       (mkNode (mkName "" "a") [] "x<b/>" [mkNode (mkName "" "b") [] "" []])) [], None) /\
  forallb (fun t => negb (is_CharData t))
    (node_tokens (mkNode (mkName "" "a") [] "x<b/>" [mkNode (mkName "" "b") [] "" []]))
  = true.
Proof.
  apply (Node_MarshalXML_tags
           (mkNode (mkName "" "a") [] "x<b/>" [mkNode (mkName "" "b") [] "" []])
           (mkEncoder [] []) (mkStart (mkName "" "") [])).
  reflexivity.
Defined.

(** X2: a Node whose own local name is empty cannot be written:
    [Node.MarshalXML] returns an error, whatever its child nodes are, and
    nothing is written, of the node or of its child nodes. *)
Theorem Node_MarshalXML_no_name (n : Node) (e : Encoder) (start : StartElement) :
  Local (XMLName n) = "" ->
  Node_MarshalXML n e start = (e, Some EncodeError).
Proof.
  intros H. destruct n as [name attrs content nodes]. cbn [XMLName] in H.
  cbn [Node_MarshalXML XMLName Attrs Nodes SName EncodeToken].
  destruct (decide (Local name = "")) as [_|N]; [|contradiction].
  cbn [EncodeToken].
  destruct (decide (Local name = "")) as [_|N]; [reflexivity|contradiction].
Qed.

Lemma Node_MarshalXML_no_name_witness :
  Node_MarshalXML
    (mkNode (mkName "urn:x" "") [] "" [mkNode (mkName "" "b") [] "" []])
    (mkEncoder [] []) (mkStart (mkName "" "") [])
  = (mkEncoder [] [], Some EncodeError).
Proof.
  apply (Node_MarshalXML_no_name
           (mkNode (mkName "urn:x" "") [] "" [mkNode (mkName "" "b") [] "" []])).
  reflexivity.
Defined.

(** ** Reading a Node, and writing it back *)

Lemma length_nodes_of (kids : list XML) :
  length (flat_map nodes_of kids) = length (List.filter is_elem kids).
Proof.
  induction kids as [|k ks IH]; [reflexivity|].
  destruct k; cbn [flat_map nodes_of is_elem List.filter app length]; now rewrite IH.
Qed.

Lemma names_nodes_of (kids : list XML) :
  map XMLName (flat_map nodes_of kids) = child_names kids.
Proof.
  induction kids as [|k ks IH]; [reflexivity|].
  unfold child_names in *.
  destruct k; cbn [flat_map nodes_of app map XMLName]; now rewrite IH.
Qed.

(** X3: decoding a well-formed element into a fresh Node reads the element
    up to its end tag and no further.  Nodes holds one node per child
    element, in document order and with the child's name (character data
    and comments give no node); Content holds the bytes between the start
    tag and the end tag. *)
Theorem Node_UnmarshalXML_tree (fuel : nat) (start : StartElement)
    (kids : list XML) (re : string) (rest : list RawToken)
    (s : list stkItem) (sv : string) :
  S (length (flat_map tokens kids)) < fuel ->
  exists n,
    Node_UnmarshalXML fuel Node_zero (inside (SName start) kids re rest s sv) start
      = (n, mkDecoder rest s (sv ++ raws (flat_map tokens kids) ++ re), None) /\
    Nodes n = flat_map nodes_of kids /\
    map XMLName (Nodes n) = child_names kids /\
    length (Nodes n) = length (List.filter is_elem kids) /\
    Content n = raws (flat_map tokens kids).
Proof.
  intros Hfuel. rewrite Node_UnmarshalXML_elem by exact Hfuel.
  eexists. split; [reflexivity|]. cbn [Nodes Content Node_zero app].
  repeat split; [apply names_nodes_of | apply length_nodes_of].
Qed.

Lemma Node_UnmarshalXML_tree_witness :
  exists n,
    Node_UnmarshalXML 7 Node_zero
      (inside (SName two_start) (CharData "t" "t" :: two_children) "</iq>" [] [] "<iq>")
      two_start
      = (n, mkDecoder [] []
              ("<iq>" ++ raws (flat_map tokens (CharData "t" "t" :: two_children))
               ++ "</iq>"), None) /\
    Nodes n = flat_map nodes_of (CharData "t" "t" :: two_children) /\
    map XMLName (Nodes n) = child_names (CharData "t" "t" :: two_children) /\
    length (Nodes n) = length (List.filter is_elem (CharData "t" "t" :: two_children)) /\
    Content n = raws (flat_map tokens (CharData "t" "t" :: two_children)).
Proof.
  apply (Node_UnmarshalXML_tree 7 two_start (CharData "t" "t" :: two_children)
           "</iq>" [] [] "<iq>").
  cbn. lia.
Defined.

Lemma skeleton_nodes_of (t : XML) :
  flat_map node_tokens (nodes_of t) = skeleton t /\
  forallb named_node (nodes_of t) = named_xml t.
Proof.
  induction t as [start rs kids re IH| | | |] using XML_induction;
    try (split; reflexivity).
  cbn [nodes_of flat_map node_tokens skeleton named_xml forallb named_node
       XMLName Attrs Nodes app].
  rewrite app_nil_r, andb_true_r.
  assert (H : flat_map node_tokens (flat_map nodes_of kids) = flat_map skeleton kids /\
              forallb named_node (flat_map nodes_of kids) = forallb named_xml kids).
  { induction kids as [|k ks IHks]; [split; reflexivity|].
    inversion IH as [|? ? [Hk1 Hk2] Hks]; subst.
    destruct (IHks Hks) as [H1 H2].
    cbn [flat_map forallb]. rewrite flat_map_app, forallb_app, Hk1, Hk2, H1, H2.
    split; reflexivity. }
  destruct H as [H1 H2]. rewrite H1, H2. split; reflexivity.
Qed.

(** X4: writing back the Node decoded from a well-formed element gives the
    tags of the element in document order, with the attributes whose local
    name is not xmlns: character data, comments, processing instructions
    and directives of the element are not written back. *)
Theorem Node_decode_encode (fuel : nat) (start : StartElement)
    (kids : list XML) (rs re : string) (rest : list RawToken)
    (s : list stkItem) (sv : string) (e : Encoder) (start' : StartElement) :
  named_xml (Elem start rs kids re) = true ->
  S (length (flat_map tokens kids)) < fuel ->
  exists n d',
    Node_UnmarshalXML fuel Node_zero (inside (SName start) kids re rest s sv) start
      = (n, d', None) /\
    Node_MarshalXML n e start'
      = (mkEncoder (out e ++ skeleton (Elem start rs kids re)) (tags e), None).
Proof.
  intros Hnamed Hfuel. rewrite Node_UnmarshalXML_elem by exact Hfuel.
  eexists _, _. split; [reflexivity|].
  destruct (skeleton_nodes_of (Elem start rs kids re)) as [H1 H2].
  cbn [nodes_of flat_map forallb] in H1, H2.
  rewrite app_nil_r in H1. rewrite andb_true_r in H2.
  cbn [Node_zero Attrs Nodes app].
  rewrite Node_MarshalXML_named by (rewrite H2; exact Hnamed).
  now rewrite H1.
Qed.

Lemma Node_decode_encode_witness :
  exists n d',
    Node_UnmarshalXML 4 Node_zero
      (inside (SName ex_start) [CharData "hi" "hi"; Comment "c" "<!--c-->"] "</x>" [] [] "")
      ex_start = (n, d', None) /\
    Node_MarshalXML n (mkEncoder [] []) (mkStart (mkName "" "") [])
      = (mkEncoder ([] ++ skeleton (Elem ex_start "<x>"
                      [CharData "hi" "hi"; Comment "c" "<!--c-->"] "</x>")) [], None).
Proof.
  apply (Node_decode_encode 4 ex_start [CharData "hi" "hi"; Comment "c" "<!--c-->"]
           "<x>" "</x>" [] [] "" (mkEncoder [] []) (mkStart (mkName "" "") [])).
  - reflexivity.
  - cbn. lia.
Defined.

(** ** Stanza error: the children that count *)

Lemma Err_child_nodes_other (t : XML) (x : Err) :
  in_stanzas t = false -> fold_left Err_child (nodes_of t) x = x.
Proof.
  destruct t as [start rs kids re| | | |]; try reflexivity.
  cbn [in_stanzas nodes_of fold_left]. intros H. apply String.eqb_neq in H.
  unfold Err_child. cbn [XMLName].
  destruct (decide (SName start = mkName NSStanzas "text")) as [E|_].
  - rewrite E in H. contradiction.
  - destruct (decide (Space (SName start) = NSStanzas)); [contradiction|reflexivity].
Qed.

Lemma fold_Err_child_filter (body : list XML) (x : Err) :
  fold_left Err_child (flat_map nodes_of body) x =
  fold_left Err_child (flat_map nodes_of (List.filter in_stanzas body)) x.
Proof.
  revert x. induction body as [|k ks IH]; intros x; [reflexivity|].
  cbn [flat_map List.filter]. rewrite fold_left_app.
  destruct (in_stanzas k) eqn:Hk.
  - cbn [flat_map]. rewrite fold_left_app. apply IH.
  - rewrite Err_child_nodes_other by exact Hk. apply IH.
Qed.

Lemma length_tokens_filter (p : XML -> bool) (body : list XML) :
  length (flat_map tokens (List.filter p body)) <= length (flat_map tokens body).
Proof.
  induction body as [|k ks IH]; [reflexivity|].
  cbn [List.filter flat_map]. destruct (p k); cbn [flat_map];
    rewrite ?length_app; lia.
Qed.

(** X5: child elements outside the stanza-error namespace, character data
    and comments have no effect on the decoded error: the Err is the one
    decoded from the element without them. *)
Theorem Err_UnmarshalXML_ignores_others (fuel : nat) (x : Err) (start : StartElement)
    (body : list XML) (re : string) (rest : list RawToken)
    (s : list stkItem) (sv : string) :
  S (length (flat_map tokens body)) < fuel ->
  exists x' d1 d2,
    Err_UnmarshalXML fuel x (inside (SName start) body re rest s sv) start
      = (x', d1, None) /\
    Err_UnmarshalXML fuel x
      (inside (SName start) (List.filter in_stanzas body) re rest s sv) start
      = (x', d2, None) /\
    input d1 = rest /\ input d2 = rest.
Proof.
  intros Hfuel. unfold Err_UnmarshalXML.
  rewrite Err_loop_forest by exact Hfuel.
  rewrite Err_loop_forest
    by (pose proof (length_tokens_filter in_stanzas body); lia).
  rewrite <- fold_Err_child_filter.
  eexists _, _, _. repeat split.
Qed.

Lemma Err_UnmarshalXML_ignores_others_witness :
  exists x' d1 d2,
    Err_UnmarshalXML 8 Err_zero
      (inside (SName scenarioB_error_start)
         (two_children ++ [scenarioB_reason]) "</error>" [] [] "")
      scenarioB_error_start = (x', d1, None) /\
    Err_UnmarshalXML 8 Err_zero
      (inside (SName scenarioB_error_start)
         (List.filter in_stanzas (two_children ++ [scenarioB_reason]))
         "</error>" [] [] "")
      scenarioB_error_start = (x', d2, None) /\
    input d1 = [] /\ input d2 = [].
Proof.
  apply (Err_UnmarshalXML_ignores_others 8 Err_zero scenarioB_error_start
           (two_children ++ [scenarioB_reason]) "</error>" [] [] "").
  cbn. lia.
Defined.

Lemma fold_Err_child_no_reason (post : list XML) (x : Err) :
  forallb (fun t => negb (is_reason t)) post = true ->
  Reason (fold_left Err_child (flat_map nodes_of post) x) = Reason x.
Proof.
  revert x. induction post as [|k ks IH]; intros x H; [reflexivity|].
  cbn [forallb] in H. apply andb_prop in H as [Hk Hks].
  cbn [flat_map]. rewrite fold_left_app, IH by exact Hks.
  destruct k as [start rs kids re| | | |]; try reflexivity.
  cbn [nodes_of fold_left]. unfold Err_child. cbn [XMLName].
  unfold is_reason, is_text, in_stanzas in Hk.
  destruct (decide (SName start = mkName NSStanzas "text")) as [E|N]; [reflexivity|].
  rewrite (bool_decide_eq_false_2 _ N) in Hk. cbn [negb] in Hk.
  rewrite andb_true_r in Hk. apply negb_true_iff, String.eqb_neq in Hk.
  destruct (decide (Space (SName start) = NSStanzas)); [contradiction|reflexivity].
Qed.

Lemma fold_Err_child_no_text (post : list XML) (x : Err) :
  forallb (fun t => negb (is_text t)) post = true ->
  Text (fold_left Err_child (flat_map nodes_of post) x) = Text x.
Proof.
  revert x. induction post as [|k ks IH]; intros x H; [reflexivity|].
  cbn [forallb] in H. apply andb_prop in H as [Hk Hks].
  cbn [flat_map]. rewrite fold_left_app, IH by exact Hks.
  destruct k as [start rs kids re| | | |]; try reflexivity.
  cbn [nodes_of fold_left]. unfold Err_child. cbn [XMLName].
  unfold is_text in Hk. apply negb_true_iff, bool_decide_eq_false in Hk.
  destruct (decide (SName start = mkName NSStanzas "text")) as [E|N]; [contradiction|].
  destruct (decide (Space (SName start) = NSStanzas)); reflexivity.
Qed.

(** X6: of several children that name a condition, the last one gives the
    Reason: the local name of the last child element of the stanza-error
    namespace that is not [text]. *)
Theorem Err_UnmarshalXML_last_reason (fuel : nat) (x : Err) (start st : StartElement)
    (pre kids post : list XML) (rs re' re : string) (rest : list RawToken)
    (s : list stkItem) (sv : string) :
  is_reason (Elem st rs kids re') = true ->
  forallb (fun t => negb (is_reason t)) post = true ->
  S (length (flat_map tokens (pre ++ Elem st rs kids re' :: post))) < fuel ->
  exists x' d',
    Err_UnmarshalXML fuel x
      (inside (SName start) (pre ++ Elem st rs kids re' :: post) re rest s sv) start
      = (x', d', None) /\
    Reason x' = Local (SName st).
Proof.
  intros Hst Hpost Hfuel. unfold Err_UnmarshalXML.
  rewrite Err_loop_forest by exact Hfuel.
  eexists _, _. split; [reflexivity|].
  rewrite flat_map_app, fold_left_app. cbn [flat_map].
  rewrite fold_left_app, fold_Err_child_no_reason by exact Hpost.
  cbn [nodes_of fold_left]. unfold Err_child. cbn [XMLName].
  unfold is_reason, is_text, in_stanzas in Hst.
  apply andb_prop in Hst as [Hns Hnt].
  apply String.eqb_eq in Hns. apply negb_true_iff, bool_decide_eq_false in Hnt.
  destruct (decide (SName st = mkName NSStanzas "text")); [contradiction|].
  destruct (decide (Space (SName st) = NSStanzas)); [reflexivity|contradiction].
Qed.

Lemma Err_UnmarshalXML_last_reason_witness :
  exists x' d',
    Err_UnmarshalXML 9 Err_zero
      (inside (SName scenarioB_error_start)
         ([Elem (mkStart (mkName NSStanzas "bad-request") []) "" [] ""]
          ++ scenarioB_reason :: [CharData " " " "]) "</error>" [] [] "")
      scenarioB_error_start = (x', d', None) /\
    Reason x' = Local (mkName NSStanzas "item-not-found").
Proof.
  apply (Err_UnmarshalXML_last_reason 9 Err_zero scenarioB_error_start
           (mkStart (mkName NSStanzas "item-not-found")
              [mkAttr (mkName "" "xmlns") NSStanzas])
           [Elem (mkStart (mkName NSStanzas "bad-request") []) "" [] ""]
           [] [CharData " " " "]
           ("<item-not-found xmlns=" ++ dq ++ NSStanzas ++ dq ++ "/>") "" "</error>"
           [] [] "").
  - reflexivity.
  - reflexivity.
  - cbn. lia.
Defined.

(** X7: the Text of the decoded error is made of the bytes between the
    tags of the last [text] child of the stanza-error namespace, markup
    and escapes included. *)
Theorem Err_UnmarshalXML_last_text (fuel : nat) (x : Err) (start st : StartElement)
    (pre kids post : list XML) (rs re' re : string) (rest : list RawToken)
    (s : list stkItem) (sv : string) :
  is_text (Elem st rs kids re') = true ->
  forallb (fun t => negb (is_text t)) post = true ->
  S (length (flat_map tokens (pre ++ Elem st rs kids re' :: post))) < fuel ->
  exists x' d',
    Err_UnmarshalXML fuel x
      (inside (SName start) (pre ++ Elem st rs kids re' :: post) re rest s sv) start
      = (x', d', None) /\
    Text x' = raws (flat_map tokens kids).
Proof.
  intros Hst Hpost Hfuel. unfold Err_UnmarshalXML.
  rewrite Err_loop_forest by exact Hfuel.
  eexists _, _. split; [reflexivity|].
  rewrite flat_map_app, fold_left_app. cbn [flat_map].
  rewrite fold_left_app, fold_Err_child_no_text by exact Hpost.
  cbn [nodes_of fold_left]. unfold Err_child. cbn [XMLName Content].
  unfold is_text in Hst. apply bool_decide_eq_true in Hst.
  destruct (decide (SName st = mkName NSStanzas "text")); [reflexivity|contradiction].
Qed.

Lemma Err_UnmarshalXML_last_text_witness :
  exists x' d',
    Err_UnmarshalXML 9 Err_zero
      (inside (SName scenarioB_error_start)
         ([scenarioB_reason]
          ++ Elem (mkStart (mkName NSStanzas "text") []) "<text>"
               [CharData "a<b" "a&lt;b"] "</text>" :: []) "</error>" [] [] "")
      scenarioB_error_start = (x', d', None) /\
    Text x' = raws (flat_map tokens [CharData "a<b" "a&lt;b"]).
Proof.
  apply (Err_UnmarshalXML_last_text 9 Err_zero scenarioB_error_start
           (mkStart (mkName NSStanzas "text") [])
           [scenarioB_reason] [CharData "a<b" "a&lt;b"] []
           "<text>" "</text>" "</error>" [] [] "").
  - reflexivity.
  - reflexivity.
  - cbn. lia.
Defined.

(** ** Stanza error: what the attributes give, on every input *)

Lemma Err_child_frame (x : Err) (elt : Node) :
  Err_XMLName (Err_child x elt) = Err_XMLName x /\
  Code (Err_child x elt) = Code x /\
  Err_Type (Err_child x elt) = Err_Type x.
Proof. unfold Err_child. case_decide_eq; repeat split. Qed.

Lemma Err_loop_frame (fuel : nat) :
  forall (x : Err) (d : Decoder) (start : StartElement),
    Err_XMLName (Err_loop fuel x d start).1.1 = Err_XMLName x /\
    Code (Err_loop fuel x d start).1.1 = Code x /\
    Err_Type (Err_loop fuel x d start).1.1 = Err_Type x.
Proof.
  induction fuel as [|fuel IH]; intros x d start; [repeat split|].
  cbn [Err_loop].
  destruct (Token_ d) as [d1 [t|e]]; [|repeat split].
  destruct t as [se|n|c|c|t i|c]; try apply IH.
  - destruct (unmarshalInterface (Node_UnmarshalXML fuel) Node_zero d1 se)
      as [[elt d2] [e|]]; [repeat split|].
    destruct (IH (Err_child x elt) d2 start) as (H1 & H2 & H3).
    destruct (Err_child_frame x elt) as (F1 & F2 & F3).
    rewrite H1, H2, H3. repeat split; assumption.
  - destruct (decide (n = End start)); [repeat split | apply IH].
Qed.

Lemma Err_attr_Type (x : Err) (a : Attr) :
  Err_Type (Err_attr x a) =
  if String.eqb (Local (AName a)) "type" then Value a else Err_Type x.
Proof.
  unfold Err_attr.
  destruct (String.eqb (Local (AName a)) "type");
    destruct (String.eqb (Local (AName a)) "code");
    try destruct (Atoi (Value a)); reflexivity.
Qed.

Lemma Err_attr_XMLName (x : Err) (a : Attr) :
  Err_XMLName (Err_attr x a) = Err_XMLName x.
Proof.
  unfold Err_attr.
  destruct (String.eqb (Local (AName a)) "type");
    destruct (String.eqb (Local (AName a)) "code");
    try destruct (Atoi (Value a)); reflexivity.
Qed.

Lemma fold_Err_attr_Type (attrs : list Attr) (x : Err) :
  Err_Type (fold_left Err_attr attrs x) = attr_field "type" attrs (Err_Type x) /\
  Err_XMLName (fold_left Err_attr attrs x) = Err_XMLName x.
Proof.
  unfold attr_field. revert x.
  induction attrs as [|a attrs IH]; intros x; [split; reflexivity|].
  cbn [fold_left]. destruct (IH (Err_attr x a)) as [H1 H2].
  rewrite H1, H2, Err_attr_Type, Err_attr_XMLName. split; reflexivity.
Qed.

(** X8: whatever follows the start tag, well-formed or not,
    [Err.UnmarshalXML] leaves XMLName at the name of the start tag and Type
    at the value of the last attribute whose local name is "type", in any
    namespace; without such an attribute Type keeps its value. *)
Theorem Err_UnmarshalXML_Type (fuel : nat) (x : Err) (d : Decoder)
    (start : StartElement) :
  Err_XMLName (Err_UnmarshalXML fuel x d start).1.1 = SName start /\
  Err_Type (Err_UnmarshalXML fuel x d start).1.1
    = attr_field "type" (SAttr start) (Err_Type x).
Proof.
  unfold Err_UnmarshalXML.
  destruct (Err_loop_frame fuel
              (fold_left Err_attr (SAttr start)
                 (mkErr (SName start) (Code x) (Err_Type x) (Reason x) (Text x)))
              d start) as (H1 & _ & H3).
  rewrite H1, H3.
  destruct (fold_Err_attr_Type (SAttr start)
              (mkErr (SName start) (Code x) (Err_Type x) (Reason x) (Text x)))
    as [F1 F2].
  rewrite F1, F2. split; reflexivity.
Qed.

Lemma not_code_is_code (a : Attr) : not_code a = negb (is_code a).
Proof. reflexivity. Qed.

(** X9: Code is the integer of the last attribute named "code" whose value
    [strconv.Atoi] accepts, whatever follows the start tag. *)
Theorem Err_UnmarshalXML_Code (fuel : nat) (x : Err) (d : Decoder)
    (name : Name) (pre post : list Attr) (a : Attr) (z : Z) :
  Local (AName a) = "code" ->
  Atoi (Value a) = Some z ->
  (forall b, In b post -> Local (AName b) = "code" -> Atoi (Value b) = None) ->
  Code (Err_UnmarshalXML fuel x d (mkStart name (pre ++ a :: post))).1.1 = z.
Proof.
  intros Ha Hz Hpost. unfold Err_UnmarshalXML. cbn [SAttr SName].
  destruct (Err_loop_frame fuel
              (fold_left Err_attr (pre ++ a :: post)
                 (mkErr name (Code x) (Err_Type x) (Reason x) (Text x)))
              d (mkStart name (pre ++ a :: post))) as (_ & H2 & _).
  rewrite H2, fold_left_app. cbn [fold_left].
  rewrite fold_Err_attr_malformed_code by exact Hpost.
  rewrite fold_Err_attr_not_code.
  unfold Err_attr. rewrite Ha, Hz. cbn. reflexivity.
Qed.

Lemma Err_UnmarshalXML_Code_witness :
  Code (Err_UnmarshalXML 0 Err_zero (mkDecoder [] [] "")
          (mkStart (mkName "" "error")
             ([mkAttr (mkName "" "code") "500"]
              ++ mkAttr (mkName "" "code") "-404"
              :: [mkAttr (mkName "" "code") "4o4"]))).1.1 = (-404)%Z.
Proof.
  apply (Err_UnmarshalXML_Code 0 Err_zero (mkDecoder [] [] "") (mkName "" "error")
           [mkAttr (mkName "" "code") "500"] [mkAttr (mkName "" "code") "4o4"]
           (mkAttr (mkName "" "code") "-404") (-404)%Z).
  - reflexivity.
  - reflexivity.
  - intros b [<-|[]] _. reflexivity.
Defined.

(** ** IQ.UnmarshalXML: what holds on every input *)

Lemma IQ_loop_frame (reg : gmap string GoType) (fuel : nat) :
  forall (level : Z) (iq : IQ) (d : Decoder) (start : StartElement),
    let iq' := (IQ_loop fuel reg level iq d start).1.1 in
    IQ_XMLName iq' = IQ_XMLName iq /\ Attrs_ iq' = Attrs_ iq /\
    RawXML iq' = RawXML iq /\ Error iq' = Error iq /\
    exists l, Payload iq' = Payload iq ++ l.
Proof.
  induction fuel as [|fuel IH]; intros level iq d start;
    [cbn; repeat split; exists []; now rewrite app_nil_r|].
  cbn [IQ_loop].
  assert (Hstop : forall (d' : Decoder) (r : option error),
    let iq' := (iq, d', r).1.1 in
    IQ_XMLName iq' = IQ_XMLName iq /\ Attrs_ iq' = Attrs_ iq /\
    RawXML iq' = RawXML iq /\ Error iq' = Error iq /\
    exists l, Payload iq' = Payload iq ++ l).
  { intros d' r. cbn. repeat split. exists []. now rewrite app_nil_r. }
  destruct (Token_ d) as [d1 [t|e]]; [|apply Hstop].
  destruct t as [se|n|c|c|t i|c]; try apply IH.
  - destruct (level + 1 <=? 1)%Z; [|apply IH].
    destruct (new_elt reg (SName se)) as [iqPl|]; [|apply IH].
    destruct (DecodeElement fuel iqPl d1 se) as [[iqPl' d2] [e|]]; [apply Hstop|].
    destruct (IH (level + 1)%Z (AddPayload iq iqPl') d2 start)
      as (H1 & H2 & H3 & H4 & l & H5).
    cbn zeta. rewrite H1, H2, H3, H4, H5. cbn [AddPayload IQ_XMLName Attrs_ RawXML Error Payload].
    repeat split. exists (iqPl' :: l). now rewrite <- app_assoc.
  - destruct (decide (n = End start)); [apply Hstop | apply IH].
Qed.

Lemma IQ_attr_fields (iq : IQ) (a : Attr) :
  let l := Local (AName a) in
  let f (name old : string) := if String.eqb l name then Value a else old in
  Attrs_ (IQ_attr iq a) =
    mkPacketAttrs (f "id" (Id (Attrs_ iq))) (f "from" (From (Attrs_ iq)))
                  (f "to" (To (Attrs_ iq))) (f "type" (Pkt_Type (Attrs_ iq)))
                  (f "lang" (Lang (Attrs_ iq))) /\
  IQ_XMLName (IQ_attr iq a) = IQ_XMLName iq /\
  RawXML (IQ_attr iq a) = RawXML iq /\ Error (IQ_attr iq a) = Error iq.
Proof.
  destruct iq as [nm [i f t ty la] pl rx er]. unfold IQ_attr. cbn zeta.
  destruct (String.eqb (Local (AName a)) "id");
    destruct (String.eqb (Local (AName a)) "type");
    destruct (String.eqb (Local (AName a)) "to");
    destruct (String.eqb (Local (AName a)) "from");
    destruct (String.eqb (Local (AName a)) "lang"); repeat split.
Qed.

Lemma fold_IQ_attr_fields (attrs : list Attr) (iq : IQ) :
  Attrs_ (fold_left IQ_attr attrs iq) =
    mkPacketAttrs (attr_field "id" attrs (Id (Attrs_ iq)))
                  (attr_field "from" attrs (From (Attrs_ iq)))
                  (attr_field "to" attrs (To (Attrs_ iq)))
                  (attr_field "type" attrs (Pkt_Type (Attrs_ iq)))
                  (attr_field "lang" attrs (Lang (Attrs_ iq))) /\
  IQ_XMLName (fold_left IQ_attr attrs iq) = IQ_XMLName iq /\
  RawXML (fold_left IQ_attr attrs iq) = RawXML iq /\
  Error (fold_left IQ_attr attrs iq) = Error iq.
Proof.
  unfold attr_field. revert iq.
  induction attrs as [|a attrs IH]; intros iq.
  - cbn. destruct iq as [nm [i f t ty la] pl rx er]. repeat split.
  - cbn [fold_left]. destruct (IH (IQ_attr iq a)) as (H1 & H2 & H3 & H4).
    destruct (IQ_attr_fields iq a) as (F1 & F2 & F3 & F4). cbn zeta in F1.
    rewrite H1, H2, H3, H4, F1, F2, F3, F4. repeat split.
Qed.

(** X10: whatever follows the start tag, [IQ.UnmarshalXML] leaves XMLName
    at the name of the start tag and each of Id, From, To, Type and Lang
    at the value of the last attribute with the local name id, from, to,
    type or lang, in any namespace (so [xml:lang] and a plain [lang] both
    set Lang); a field without such an attribute keeps its value. *)
Theorem IQ_UnmarshalXML_attributes (fuel : nat) (reg : gmap string GoType)
    (iq : IQ) (d : Decoder) (start : StartElement) :
  let iq' := (IQ_UnmarshalXML fuel reg iq d start).1.1 in
  IQ_XMLName iq' = SName start /\
  Id (Attrs_ iq') = attr_field "id" (SAttr start) (Id (Attrs_ iq)) /\
  From (Attrs_ iq') = attr_field "from" (SAttr start) (From (Attrs_ iq)) /\
  To (Attrs_ iq') = attr_field "to" (SAttr start) (To (Attrs_ iq)) /\
  Pkt_Type (Attrs_ iq') = attr_field "type" (SAttr start) (Pkt_Type (Attrs_ iq)) /\
  Lang (Attrs_ iq') = attr_field "lang" (SAttr start) (Lang (Attrs_ iq)).
Proof.
  unfold IQ_UnmarshalXML. cbn zeta.
  set (iq0 := mkIQ (SName start) (Attrs_ iq) (Payload iq) (RawXML iq) (Error iq)).
  destruct (IQ_loop_frame reg fuel 0 (fold_left IQ_attr (SAttr start) iq0) d start)
    as (H1 & H2 & _).
  destruct (fold_IQ_attr_fields (SAttr start) iq0) as (F1 & F2 & _).
  rewrite H1, H2, F1, F2. repeat split.
Qed.

(** X11: on every input, also when it returns an error, [IQ.UnmarshalXML]
    leaves RawXML and Error of the receiver as they were and keeps the
    payloads the receiver had: it only appends to the payload list. *)
Theorem IQ_UnmarshalXML_frame (fuel : nat) (reg : gmap string GoType)
    (iq : IQ) (d : Decoder) (start : StartElement) :
  let iq' := (IQ_UnmarshalXML fuel reg iq d start).1.1 in
  RawXML iq' = RawXML iq /\ Error iq' = Error iq /\
  exists l, Payload iq' = Payload iq ++ l.
Proof.
  unfold IQ_UnmarshalXML. cbn zeta.
  set (iq0 := mkIQ (SName start) (Attrs_ iq) (Payload iq) (RawXML iq) (Error iq)).
  destruct (IQ_loop_frame reg fuel 0 (fold_left IQ_attr (SAttr start) iq0) d start)
    as (_ & _ & H3 & H4 & l & H5).
  destruct (fold_IQ_attr_fields (SAttr start) iq0) as (_ & _ & F3 & F4).
  rewrite H3, H4, H5, F3, F4, fold_IQ_attr_Payload. repeat split. now exists l.
Qed.

(** X12: an iq element without child elements (it may hold character data
    and comments) is decoded without error up to its end tag, with an
    empty payload list. *)
Theorem iqDecoder_decode_no_child (reg : gmap string GoType) (iqstart : StartElement)
    (misc : list XML) (re : string) (rest : list RawToken)
    (s : list stkItem) (sv : string) :
  forallb (fun t => negb (is_elem t)) misc = true ->
  exists iq,
    iqDecoder_decode reg (inside (SName iqstart) misc re rest s sv) iqstart
      = (iq, mkDecoder rest s (sv ++ raws (flat_map tokens misc) ++ re), None) /\
    Payload iq = [].
Proof.
  intros Hmisc.
  unfold iqDecoder_decode, enough_fuel, unmarshalInterface, IQ_UnmarshalXML.
  cbn [inside stk input saved]. rewrite pushEOF_start.
  change (mkDecoder (flat_map tokens misc ++ mkRaw (TEnd (SName iqstart)) re :: rest)
            (StkStart (SName iqstart) :: StkEOF :: s) sv)
    with (inside (SName iqstart) misc re rest (StkEOF :: s) sv).
  rewrite IQ_loop_no_child
    by (try exact Hmisc; rewrite length_app; cbn [length]; lia).
  cbn [popEOF stk input saved].
  eexists. split; [reflexivity|]. now rewrite fold_IQ_attr_Payload.
Qed.

Lemma iqDecoder_decode_no_child_witness :
  exists iq,
    iqDecoder_decode typeRegistry
      (inside (SName scenarioB_start) [CharData " " " "] "</iq>" [] [] scenarioB_iq_raw)
      scenarioB_start
      = (iq, mkDecoder [] []
               (scenarioB_iq_raw ++ raws (flat_map tokens [CharData " " " "]) ++ "</iq>"),
         None) /\
    Payload iq = [].
Proof.
  apply (iqDecoder_decode_no_child typeRegistry scenarioB_start [CharData " " " "]
           "</iq>" [] [] scenarioB_iq_raw).
  reflexivity.
Defined.

(** ** The key of the registry *)

Lemma no_space_app (a b : string) :
  no_space (a ++ String " " b) = false.
Proof.
  induction a as [|c a IH]; [reflexivity|].
  rewrite append_cons. cbn [no_space]. rewrite IH. apply andb_false_r.
Qed.

Lemma key_inj (s1 s2 l1 l2 : string) :
  no_space l1 = true -> no_space l2 = true ->
  (s1 ++ String " " l1)%string = (s2 ++ String " " l2)%string ->
  s1 = s2 /\ l1 = l2.
Proof.
  revert s2. induction s1 as [|c s1 IH]; intros s2 H1 H2 E.
  - destruct s2 as [|c2 s2].
    + rewrite !append_nil_l in E. injection E as ->. split; reflexivity.
    + rewrite append_nil_l, append_cons in E. injection E as <- ->.
      rewrite no_space_app in H1. discriminate H1.
  - destruct s2 as [|c2 s2].
    + rewrite append_nil_l, append_cons in E. injection E as -> <-.
      rewrite no_space_app in H2. discriminate H2.
    + rewrite !append_cons in E. injection E as <- E.
      destruct (IH s2 H1 H2 E) as [-> ->]. split; reflexivity.
Qed.

(** X13: the key under which a type is looked up, the namespace, a space
    and the local name, tells apart any two qualified names whose local
    names hold no space: two such names with the same key are the same
    name. *)
Theorem payloadType_inj (n1 n2 : Name) :
  no_space (Local n1) = true -> no_space (Local n2) = true ->
  payloadType n1 = payloadType n2 -> n1 = n2.
Proof.
  intros H1 H2 E. destruct n1 as [s1 l1], n2 as [s2 l2].
  unfold payloadType in E. cbn [Space Local] in *.
  destruct (key_inj s1 s2 l1 l2 H1 H2 E) as [-> ->]. reflexivity.
Qed.

Lemma payloadType_inj_witness :
  mkName NSDiscoInfo "query" = mkName NSDiscoInfo "query".
Proof.
  apply (payloadType_inj (mkName NSDiscoInfo "query") (mkName NSDiscoInfo "query"));
    reflexivity.
Defined.

(** ** Service discovery payloads *)

(** The whole decoding of an iq element whose first child element is
    accepted by the payload made for its name. *)
Lemma iqDecoder_decode_first_child (reg : gmap string GoType)
    (iqstart st : StartElement) (misc kids tail : list XML) (rs re' re : string)
    (rest : list RawToken) (s : list stkItem) (sv : string) (p0 : IQPayload) :
  forallb (fun t => negb (is_elem t)) misc = true ->
  existsb (mentions (SName iqstart)) tail = false ->
  new_elt reg (SName st) = Some p0 ->
  accepts p0 st = true ->
  exists iq d',
    iqDecoder_decode reg
      (inside (SName iqstart) (misc ++ Elem st rs kids re' :: tail) re rest s sv)
      iqstart = (iq, d', None) /\
    input d' = rest /\
    Payload iq = [decoded p0 st kids].
Proof.
  intros Hmisc Htail Hnew Hacc.
  unfold iqDecoder_decode, enough_fuel, unmarshalInterface, IQ_UnmarshalXML.
  cbn [inside stk input saved]. rewrite pushEOF_start.
  change (mkDecoder (flat_map tokens (misc ++ Elem st rs kids re' :: tail) ++
            mkRaw (TEnd (SName iqstart)) re :: rest)
            (StkStart (SName iqstart) :: StkEOF :: s) sv)
    with (inside (SName iqstart) (misc ++ Elem st rs kids re' :: tail) re rest
            (StkEOF :: s) sv).
  rewrite (IQ_loop_first_child reg _ _ iqstart st misc kids tail
             rs re' re rest (StkEOF :: s) sv p0 Hmisc Htail Hnew Hacc)
    by (rewrite length_app; cbn [length]; lia).
  cbn [popEOF stk input saved].
  eexists _, _. split; [reflexivity|]. split; [reflexivity|].
  cbn [AddPayload Payload]. now rewrite fold_IQ_attr_Payload.
Qed.

Lemma filter_named_children (ns name : string) (kids : list XML) :
  forallb (same_ns ns name) kids = true ->
  map EStart (List.filter (named ns name) (flat_map elements_of kids))
  = local_children name kids.
Proof.
  unfold local_children.
  induction kids as [|k ks IH]; intros H; [reflexivity|].
  cbn [forallb] in H. apply andb_prop in H as [Hk Hks].
  cbn [flat_map]. rewrite List.filter_app, map_app, IH by exact Hks. f_equal.
  destruct k as [start rs kk re| | | |]; try reflexivity.
  cbn [elements_of List.filter]. unfold named. cbn [EStart same_ns] in *.
  destruct (String.eqb (Local (SName start)) name); cbn [implb andb] in *.
  - rewrite Hk, orb_true_r. reflexivity.
  - reflexivity.
Qed.

Lemma map_unmarshal_DiscoItem (l : list Element) :
  map unmarshal_DiscoItem l = map DiscoItem_of (map EStart l).
Proof. rewrite map_map. reflexivity. Qed.

Lemma map_unmarshal_Feature (l : list Element) :
  map unmarshal_Feature l = map Feature_of (map EStart l).
Proof. rewrite map_map. reflexivity. Qed.

(** X14: a first child [query] of the disco#items namespace is decoded,
    with the registry of [init], into a DiscoItems: its Node is the last
    [node] attribute, and Items holds one DiscoItem per child element
    named [item], in document order, with the attributes name, jid and
    node of that child; other children give no item. *)
Theorem iqDecoder_decode_DiscoItems (iqstart st : StartElement)
    (misc kids tail : list XML) (rs re' re : string)
    (rest : list RawToken) (s : list stkItem) (sv : string) :
  SName st = mkName NSDiscoItems "query" ->
  forallb (same_ns NSDiscoItems "item") kids = true ->
  forallb (fun t => negb (is_elem t)) misc = true ->
  existsb (mentions (SName iqstart)) tail = false ->
  exists iq d',
    iqDecoder_decode typeRegistry
      (inside (SName iqstart) (misc ++ Elem st rs kids re' :: tail) re rest s sv)
      iqstart = (iq, d', None) /\
    input d' = rest /\
    Payload iq =
      [PDiscoItems (mkDiscoItems (SName st) (attr_field "node" (SAttr st) "")
                      (map DiscoItem_of (local_children "item" kids)))].
Proof.
  intros Hname Hns Hmisc Htail.
  destruct (iqDecoder_decode_first_child typeRegistry iqstart st misc kids tail
              rs re' re rest s sv (PDiscoItems DiscoItems_zero) Hmisc Htail)
    as (iq & d' & H1 & H2 & H3).
  - unfold new_elt. rewrite Hname. reflexivity.
  - cbn [accepts]. unfold expect_name. rewrite Hname. reflexivity.
  - exists iq, d'. split; [exact H1|]. split; [exact H2|]. rewrite H3.
    cbn [decoded DiscoItems_zero DiscoItems_Node Items app].
    rewrite map_unmarshal_DiscoItem, filter_named_children by exact Hns.
    reflexivity.
Qed.

Lemma iqDecoder_decode_DiscoItems_witness :
  exists iq d',
    iqDecoder_decode typeRegistry
      (inside (SName two_start) ([] ++ Elem items_query "" items_kids "" :: [])
              "</iq>" [] [] "")
      two_start = (iq, d', None) /\
    input d' = [] /\
    Payload iq =
      [PDiscoItems (mkDiscoItems (SName items_query)
                      (attr_field "node" (SAttr items_query) "")
                      (map DiscoItem_of (local_children "item" items_kids)))].
Proof.
  apply (iqDecoder_decode_DiscoItems two_start items_query [] items_kids []
           "" "" "</iq>" [] [] ""); reflexivity.
Defined.

(** X15: a first child [query] of the disco#info namespace is decoded,
    with the registry of [init], into a DiscoInfo whose Node is the last
    [node] attribute and whose Features are the [var] attributes of the
    child elements named [feature], one per child and in document order. *)
Theorem iqDecoder_decode_DiscoInfo (iqstart st : StartElement)
    (misc kids tail : list XML) (rs re' re : string)
    (rest : list RawToken) (s : list stkItem) (sv : string) :
  SName st = mkName NSDiscoInfo "query" ->
  forallb (same_ns NSDiscoInfo "feature") kids = true ->
  forallb (fun t => negb (is_elem t)) misc = true ->
  existsb (mentions (SName iqstart)) tail = false ->
  exists iq d' v,
    iqDecoder_decode typeRegistry
      (inside (SName iqstart) (misc ++ Elem st rs kids re' :: tail) re rest s sv)
      iqstart = (iq, d', None) /\
    input d' = rest /\
    Payload iq = [PDiscoInfo v] /\
    DiscoInfo_XMLName v = SName st /\
    DiscoInfo_Node v = attr_field "node" (SAttr st) "" /\
    Features v = map Feature_of (local_children "feature" kids).
Proof.
  intros Hname Hns Hmisc Htail.
  destruct (iqDecoder_decode_first_child typeRegistry iqstart st misc kids tail
              rs re' re rest s sv (PDiscoInfo DiscoInfo_zero) Hmisc Htail)
    as (iq & d' & H1 & H2 & H3).
  - unfold new_elt. rewrite Hname. reflexivity.
  - cbn [accepts]. unfold expect_name. rewrite Hname. reflexivity.
  - eexists iq, d', _. split; [exact H1|]. split; [exact H2|].
    split; [exact H3|].
    cbn [DiscoInfo_XMLName DiscoInfo_Node Features DiscoInfo_zero app].
    rewrite map_unmarshal_Feature, filter_named_children by exact Hns.
    repeat split.
Qed.

Lemma iqDecoder_decode_DiscoInfo_witness :
  exists iq d' v,
    iqDecoder_decode typeRegistry
      (inside (SName two_start) ([] ++ Elem info_query "" info_kids "" :: [])
              "</iq>" [] [] "")
      two_start = (iq, d', None) /\
    input d' = [] /\
    Payload iq = [PDiscoInfo v] /\
    DiscoInfo_XMLName v = SName info_query /\
    DiscoInfo_Node v = attr_field "node" (SAttr info_query) "" /\
    Features v = map Feature_of (local_children "feature" info_kids).
Proof.
  apply (iqDecoder_decode_DiscoInfo two_start info_query [] info_kids []
           "" "" "</iq>" [] [] ""); reflexivity.
Defined.

(** ** Building an IQ *)

Lemma fold_AddPayload (ps : list IQPayload) (iq : IQ) :
  fold_left AddPayload ps iq =
  mkIQ (IQ_XMLName iq) (Attrs_ iq) (Payload iq ++ ps) (RawXML iq) (Error iq).
Proof.
  revert iq. induction ps as [|p ps IH]; intros iq.
  - cbn. rewrite app_nil_r. now destruct iq.
  - cbn [fold_left]. rewrite IH. unfold AddPayload.
    cbn [IQ_XMLName Attrs_ Payload RawXML Error]. now rewrite <- app_assoc.
Qed.

(** X16: an IQ made by [NewIQ] and given payloads by [AddPayload] holds
    exactly these payloads, in the order of the calls and repeated ones
    included; its element name is iq, its attributes are the arguments of
    [NewIQ] and its Error is the zero Err, for which [Err.MarshalXML]
    writes nothing. *)
Theorem NewIQ_AddPayload (iqtype from to id lang : string) (ps : list IQPayload)
    (e : Encoder) (start : StartElement) :
  let iq := fold_left AddPayload ps (NewIQ iqtype from to id lang) in
  Payload iq = ps /\
  IQ_XMLName iq = mkName "" "iq" /\
  Attrs_ iq = mkPacketAttrs id from to iqtype lang /\
  RawXML iq = "" /\
  Err_MarshalXML (Error iq) e start = (e, None).
Proof.
  cbn zeta. rewrite fold_AddPayload. repeat split.
Qed.

(** ** Documents cut short *)

(** The loop of the default decoding of [node] over complete pieces that
    are followed by more input. *)
Lemma unmarshal_node_prefix (body : list XML) :
  forall (fuel : nat) (n : Node) (name : Name) (more : list RawToken)
         (s : list stkItem) (sv : string) (idx : nat),
    length (flat_map tokens body) < fuel ->
    unmarshal_node fuel n
      (mkDecoder (flat_map tokens body ++ more) (StkStart name :: s) sv) idx =
    unmarshal_node (fuel - length body)
      (mkNode (XMLName n) (Attrs n) (Content n) (Nodes n ++ flat_map nodes_of body))
      (mkDecoder more (StkStart name :: s) (sv ++ raws (flat_map tokens body))) idx.
Proof.
  induction body as [|k ks IH]; intros fuel n name more s sv idx Hfuel.
  - cbn. rewrite Nat.sub_0_r, app_nil_r, append_nil_r. now destruct n.
  - destruct fuel as [|fuel]; [lia|].
    destruct k as [st rs kids re'| c r | c r | t i r | c r].
    + cbn [flat_map tokens] in Hfuel |- *.
      rewrite !length_app in Hfuel. cbn [length] in Hfuel.
      rewrite !length_app in Hfuel. cbn [length] in Hfuel.
      rewrite <- !app_assoc. cbn [app]. rewrite <- !app_assoc. cbn [app].
      cbn [unmarshal_node Token_ stk input tok raw saved].
      change (mkDecoder (flat_map tokens kids ++
                mkRaw (TEnd (SName st)) re' :: flat_map tokens ks ++ more)
              (StkStart (SName st) :: StkStart name :: s) (sv ++ rs))
        with (inside (SName st) kids re' (flat_map tokens ks ++ more)
                (StkStart name :: s) (sv ++ rs)).
      rewrite DecodeElement_Node_elem by lia.
      rewrite IH by lia.
      cbn [length Nat.sub XMLName Attrs Content Nodes nodes_of flat_map app
           raws fold_right raw].
      rewrite !raws_app. cbn [raws fold_right raw].
      rewrite <- !app_assoc. cbn [app].
      rewrite ?append_assoc, ?append_nil_r. reflexivity.
    + cbn in Hfuel. cbn. rewrite IH by lia. rewrite !append_assoc. reflexivity.
    + cbn in Hfuel. cbn. rewrite IH by lia. rewrite !append_assoc. reflexivity.
    + cbn in Hfuel. cbn. rewrite IH by lia. rewrite !append_assoc. reflexivity.
    + cbn in Hfuel. cbn. rewrite IH by lia. rewrite !append_assoc. reflexivity.
Qed.

Lemma length_le_tokens (body : list XML) :
  length body <= length (flat_map tokens body).
Proof.
  induction body as [|k ks IH]; [reflexivity|].
  cbn [flat_map length]. rewrite length_app.
  destruct k; cbn [tokens length]; lia.
Qed.

Lemma unmarshal_node_cut (c : Cut) :
  forall (fuel : nat) (n : Node) (name : Name) (s : list stkItem)
         (sv : string) (idx : nat),
    2 * length (tokens_cut c) < fuel ->
    exists n' d',
      unmarshal_node fuel n (mkDecoder (tokens_cut c) (StkStart name :: s) sv) idx
      = (n', d', Some SyntaxError) /\ input d' = [].
Proof.
  induction c as [before|before st rs inner IH];
    intros fuel n name s sv idx Hfuel; cbn [tokens_cut] in *.
  - rewrite <- (app_nil_r (flat_map tokens before)).
    rewrite unmarshal_node_prefix by lia.
    pose proof (length_le_tokens before) as Hle.
    destruct (fuel - length before) as [|f] eqn:Hf; [lia|].
    cbn. eexists _, _. split; reflexivity.
  - rewrite length_app in Hfuel. cbn [length] in Hfuel.
    rewrite unmarshal_node_prefix by lia.
    pose proof (length_le_tokens before) as Hle.
    destruct (fuel - length before) as [|f] eqn:Hf; [lia|].
    cbn [unmarshal_node Token_ stk input tok raw saved].
    unfold unmarshalInterface. cbn [stk input saved]. rewrite pushEOF_start.
    destruct f as [|f']; [lia|].
    cbn [Node_UnmarshalXML].
    edestruct (IH f') as (n' & d' & Hrun & Hin); [lia|].
    rewrite Hrun. eexists _, _. split; [reflexivity|].
    unfold popEOF. destruct (stk d') as [|[|] ?]; cbn; exact Hin.
Qed.

(** X17: an element whose content is cut short, at the end of any token
    before its end tag, is not accepted: [Node.UnmarshalXML] reads what is
    there and returns the syntax error of the decoder. *)
Theorem Node_UnmarshalXML_cut (fuel : nat) (start : StartElement) (c : Cut)
    (s : list stkItem) (sv : string) :
  S (2 * length (tokens_cut c)) < fuel ->
  exists n d',
    Node_UnmarshalXML fuel Node_zero
      (mkDecoder (tokens_cut c) (StkStart (SName start) :: s) sv) start
    = (n, d', Some SyntaxError) /\ input d' = [].
Proof.
  intros Hfuel. destruct fuel as [|fuel]; [lia|].
  cbn [Node_UnmarshalXML]. apply unmarshal_node_cut. lia.
Qed.

Lemma Node_UnmarshalXML_cut_witness :
  exists n d',
    Node_UnmarshalXML 14 Node_zero
      (mkDecoder (tokens_cut (CutIn two_children (mkStart (mkName "" "c") []) "<c>"
                                (CutHere [CharData "x" "x"])))
         (StkStart (SName two_start) :: []) "<iq>") two_start
    = (n, d', Some SyntaxError) /\ input d' = [].
Proof.
  apply (Node_UnmarshalXML_cut 14 two_start
           (CutIn two_children (mkStart (mkName "" "c") []) "<c>"
              (CutHere [CharData "x" "x"])) [] "<iq>").
  cbn. lia.
Defined.

(** ** What the decoders read, and the bound of the loops *)

(** [Decoder.Token] takes the next token off the input or leaves the input
    as it is; it never gives the error that stands for the bound. *)
Lemma Token_reads (d d1 : Decoder) (r : Token + error) :
  Token_ d = (d1, r) ->
  input d1 `suffix_of` input d /\ r <> inr OutOfFuel /\
  (forall t, r = inl t -> exists rt, input d = rt :: input d1 /\ tok rt = t).
Proof.
  unfold Token_. intros H.
  destruct (stk d) as [|[n'|] s] eqn:Hs; destruct (input d) as [|rt rest] eqn:Hi;
    try (injection H as <- <-; rewrite ?Hi;
         repeat split; [reflexivity | discriminate | discriminate]).
  - destruct (tok rt) eqn:Ht; injection H as <- <-; cbn [input];
      (repeat split; [apply suffix_cons_r; reflexivity | discriminate |]);
      intros t' E; try discriminate E; injection E as <-;
      exists rt; split; reflexivity || exact Ht.
  - destruct (tok rt) eqn:Ht;
      [| destruct (decide (n' = n)) | | | |];
      injection H as <- <-; cbn [input];
      (repeat split; [apply suffix_cons_r; reflexivity | discriminate |]);
      intros t' E; try discriminate E; injection E as <-;
      exists rt; split; reflexivity || exact Ht.
Qed.

(** [unmarshalInterface] reads what the method reads. *)
Lemma unmarshalInterface_reads {A : Type}
    (f : A -> Decoder -> StartElement -> A * Decoder * option error)
    (B : Prop) (val : A) (d : Decoder) (start : StartElement)
    (val' : A) (d' : Decoder) (r : option error) :
  (forall d0 v1 d1 r1,
      input d0 = input d -> f val d0 start = (v1, d1, r1) ->
      input d1 `suffix_of` input d0 /\ (B -> r1 <> Some OutOfFuel)) ->
  unmarshalInterface f val d start = (val', d', r) ->
  input d' `suffix_of` input d /\ (B -> r <> Some OutOfFuel).
Proof.
  intros Hf. unfold unmarshalInterface.
  destruct (pushEOF (stk d)) as [s|].
  - destruct (f val (mkDecoder (input d) s (saved d)) start) as [[v1 d1] r1] eqn:E.
    destruct (Hf (mkDecoder (input d) s (saved d)) _ _ _ eq_refl E) as [Hsuf Hr].
    cbn [input] in Hsuf.
    unfold popEOF.
    destruct r1 as [e|]; destruct (stk d1) as [|[n|] s1];
      intros H; injection H as <- <- <-; cbn [fst input];
      (split; [exact Hsuf | first [exact Hr | discriminate]]).
  - intros H. injection H as <- <- <-. split; [reflexivity | discriminate].
Qed.

(** [Node.UnmarshalXML] and the loop it ends in read a run of tokens from
    the front of the input, and do not reach their bound when it is more
    than twice the number of tokens left. *)
Lemma Node_UnmarshalXML_reads (fuel : nat) :
  (forall n d start n' d' r,
      Node_UnmarshalXML fuel n d start = (n', d', r) ->
      input d' `suffix_of` input d /\
      (2 * length (input d) + 2 <= fuel -> r <> Some OutOfFuel)) /\
  (forall n d idx n' d' r,
      unmarshal_node fuel n d idx = (n', d', r) ->
      input d' `suffix_of` input d /\
      (2 * length (input d) + 1 <= fuel -> r <> Some OutOfFuel)).
Proof.
  induction fuel as [|fuel [IH1 IH2]].
  - split; intros; match goal with H : _ = (_, _, _) |- _ => injection H as <- <- <- end;
      (split; [reflexivity | lia]).
  - split.
    + intros n d start n' d' r H. cbn [Node_UnmarshalXML] in H.
      apply IH2 in H as [Hs Hr]. split; [exact Hs | intros; apply Hr; lia].
    + intros n d idx n' d' r H. cbn [unmarshal_node] in H.
      destruct (Token_ d) as [d1 [t|e]] eqn:Ht;
        apply Token_reads in Ht as (Hs1 & Hne & Hrt).
      * destruct (Hrt t eq_refl) as (rt & Hin & _).
        apply (f_equal (@length _)) in Hin. cbn [length] in Hin.
        destruct t as [se|nm|c|c|t i|c].
        -- destruct (unmarshalInterface (Node_UnmarshalXML fuel) Node_zero d1 se)
             as [[c d2] [e|]] eqn:Hu;
             apply (unmarshalInterface_reads _ (2 * length (input d1) + 2 <= fuel))
               in Hu as [Hs2 Hr2];
             try (intros d0 v1 d1' r1 Hd0 Hf; apply IH1 in Hf as [? ?];
                  split; [assumption | rewrite Hd0 in *; assumption]).
           ++ injection H as <- <- <-.
              split; [etrans; eassumption | intros; apply Hr2; lia].
           ++ apply IH2 in H as [Hs3 Hr3].
              pose proof (suffix_length _ _ Hs2).
              split; [etrans; [exact Hs3 | etrans; eassumption]
                     | intros; apply Hr3; lia].
        -- injection H as <- <- <-. split; [exact Hs1 | discriminate].
        -- apply IH2 in H as [Hs3 Hr3].
           split; [etrans; eassumption | intros; apply Hr3; lia].
        -- apply IH2 in H as [Hs3 Hr3].
           split; [etrans; eassumption | intros; apply Hr3; lia].
        -- apply IH2 in H as [Hs3 Hr3].
           split; [etrans; eassumption | intros; apply Hr3; lia].
        -- apply IH2 in H as [Hs3 Hr3].
           split; [etrans; eassumption | intros; apply Hr3; lia].
      * injection H as <- <- <-. split; [exact Hs1 | congruence].
Qed.

Lemma Err_loop_reads (fuel : nat) :
  forall x d start x' d' r,
    Err_loop fuel x d start = (x', d', r) ->
    input d' `suffix_of` input d /\
    (2 * length (input d) + 1 <= fuel -> r <> Some OutOfFuel).
Proof.
  induction fuel as [|fuel IH]; intros x d start x' d' r H.
  - injection H as <- <- <-. split; [reflexivity | lia].
  - cbn [Err_loop] in H.
    destruct (Token_ d) as [d1 [t|e]] eqn:Ht;
      apply Token_reads in Ht as (Hs1 & Hne & Hrt).
    + destruct (Hrt t eq_refl) as (rt & Hin & _).
      apply (f_equal (@length _)) in Hin. cbn [length] in Hin.
      destruct t as [se|nm|c|c|t i|c].
      * destruct (unmarshalInterface (Node_UnmarshalXML fuel) Node_zero d1 se)
          as [[c d2] [e|]] eqn:Hu;
          apply (unmarshalInterface_reads _ (2 * length (input d1) + 2 <= fuel))
            in Hu as [Hs2 Hr2];
          try (intros d0 v1 d1' r1 Hd0 Hf;
               apply (proj1 (Node_UnmarshalXML_reads fuel)) in Hf as [? ?];
               split; [assumption | rewrite Hd0 in *; assumption]).
        -- injection H as <- <- <-.
           split; [etrans; eassumption | intros; apply Hr2; lia].
        -- apply IH in H as [Hs3 Hr3].
           pose proof (suffix_length _ _ Hs2).
           split; [etrans; [exact Hs3 | etrans; eassumption]
                  | intros; apply Hr3; lia].
      * destruct (decide (nm = End start)).
        -- injection H as <- <- <-. split; [exact Hs1 | discriminate].
        -- apply IH in H as [Hs3 Hr3].
           split; [etrans; eassumption | intros; apply Hr3; lia].
      * apply IH in H as [Hs3 Hr3].
        split; [etrans; eassumption | intros; apply Hr3; lia].
      * apply IH in H as [Hs3 Hr3].
        split; [etrans; eassumption | intros; apply Hr3; lia].
      * apply IH in H as [Hs3 Hr3].
        split; [etrans; eassumption | intros; apply Hr3; lia].
      * apply IH in H as [Hs3 Hr3].
        split; [etrans; eassumption | intros; apply Hr3; lia].
    + injection H as <- <- <-. split; [exact Hs1 | congruence].
Qed.

Lemma read_children_reads (fuel : nat) :
  forall d kids d' r,
    read_children fuel d = (kids, d', r) ->
    input d' `suffix_of` input d /\
    (2 * length (input d) + 1 <= fuel -> r <> Some OutOfFuel).
Proof.
  induction fuel as [|fuel IH]; intros d kids d' r H.
  - injection H as <- <- <-. split; [reflexivity | lia].
  - cbn [read_children] in H.
    destruct (Token_ d) as [d1 [t|e]] eqn:Ht;
      apply Token_reads in Ht as (Hs1 & Hne & Hrt).
    + destruct (Hrt t eq_refl) as (rt & Hin & _).
      apply (f_equal (@length _)) in Hin. cbn [length] in Hin.
      destruct t as [se|nm|c|c|t i|c];
        try (apply IH in H as [Hs3 Hr3];
             split; [etrans; eassumption | intros; apply Hr3; lia]).
      * destruct (read_children fuel d1) as [[k1 d2] [e|]] eqn:H1;
          apply IH in H1 as [Hs2 Hr2].
        -- injection H as <- <- <-.
           split; [etrans; eassumption | intros; apply Hr2; lia].
        -- destruct (read_children fuel d2) as [[k2 d3] r3] eqn:H2.
           apply IH in H2 as [Hs3 Hr3]. injection H as <- <- <-.
           pose proof (suffix_length _ _ Hs2).
           split; [etrans; [exact Hs3 | etrans; eassumption]
                  | intros; apply Hr3; lia].
      * injection H as <- <- <-. split; [exact Hs1 | discriminate].
    + injection H as <- <- <-. split; [exact Hs1 | congruence].
Qed.

(** [DecodeElement] for a payload. *)
Lemma DecodeElement_reads (fuel : nat) (elt : IQPayload) (d : Decoder)
    (start : StartElement) (elt' : IQPayload) (d' : Decoder) (r : option error) :
  DecodeElement fuel elt d start = (elt', d', r) ->
  input d' `suffix_of` input d /\
  (2 * length (input d) + 2 <= fuel -> r <> Some OutOfFuel).
Proof.
  destruct elt as [n|x|v|v|v|v]; cbn [DecodeElement].
  - destruct (unmarshalInterface (Node_UnmarshalXML fuel) n d start)
      as [[n' d1] r1] eqn:Hu. intros H. injection H as <- <- <-.
    apply (unmarshalInterface_reads _ (2 * length (input d) + 2 <= fuel)) in Hu;
      [exact Hu|].
    intros d0 v1 d1' r1' Hd0 Hf.
    apply (proj1 (Node_UnmarshalXML_reads fuel)) in Hf as [? ?].
    split; [assumption | rewrite Hd0 in *; assumption].
  - destruct (unmarshalInterface (Err_UnmarshalXML fuel) x d start)
      as [[x' d1] r1] eqn:Hu. intros H. injection H as <- <- <-.
    apply (unmarshalInterface_reads _ (2 * length (input d) + 2 <= fuel)) in Hu;
      [exact Hu|].
    intros d0 v1 d1' r1' Hd0 Hf. unfold Err_UnmarshalXML in Hf.
    apply Err_loop_reads in Hf as [? Hr].
    split; [assumption | rewrite Hd0 in *; intros; apply Hr; lia].
  - unfold unmarshal_DiscoInfo.
    destruct (negb (expect_name NSDiscoInfo "query" start)).
    + intros H. injection H as <- <- <-. split; [reflexivity | discriminate].
    + destruct (read_children fuel d) as [[kids d1] [e|]] eqn:Hc;
        apply read_children_reads in Hc as [Hs Hr];
        intros H; injection H as <- <- <-;
        (split; [exact Hs | intros; first [apply Hr; lia | discriminate]]).
  - unfold unmarshal_DiscoItems.
    destruct (negb (expect_name NSDiscoItems "query" start)).
    + intros H. injection H as <- <- <-. split; [reflexivity | discriminate].
    + destruct (read_children fuel d) as [[kids d1] [e|]] eqn:Hc;
        apply read_children_reads in Hc as [Hs Hr];
        intros H; injection H as <- <- <-;
        (split; [exact Hs | intros; first [apply Hr; lia | discriminate]]).
  - unfold unmarshal_opaque.
    destruct (read_children fuel d) as [[kids d1] [e|]] eqn:Hc;
      apply read_children_reads in Hc as [Hs Hr];
      intros H; injection H as <- <- <-;
      (split; [exact Hs | intros; first [apply Hr; lia | discriminate]]).
  - unfold unmarshal_opaque.
    destruct (read_children fuel d) as [[kids d1] [e|]] eqn:Hc;
      apply read_children_reads in Hc as [Hs Hr];
      intros H; injection H as <- <- <-;
      (split; [exact Hs | intros; first [apply Hr; lia | discriminate]]).
Qed.

Lemma IQ_loop_reads (reg : gmap string GoType) (fuel : nat) :
  forall level iq d start iq' d' r,
    IQ_loop fuel reg level iq d start = (iq', d', r) ->
    input d' `suffix_of` input d /\
    (2 * length (input d) + 1 <= fuel -> r <> Some OutOfFuel).
Proof.
  induction fuel as [|fuel IH]; intros level iq d start iq' d' r H.
  - injection H as <- <- <-. split; [reflexivity | lia].
  - cbn [IQ_loop] in H.
    destruct (Token_ d) as [d1 [t|e]] eqn:Ht;
      apply Token_reads in Ht as (Hs1 & Hne & Hrt).
    + destruct (Hrt t eq_refl) as (rt & Hin & _).
      apply (f_equal (@length _)) in Hin. cbn [length] in Hin.
      assert (Hstep : forall level iq,
                 IQ_loop fuel reg level iq d1 start = (iq', d', r) ->
                 input d' `suffix_of` input d /\
                 (2 * length (input d) + 1 <= S fuel -> r <> Some OutOfFuel)).
      { intros l q Hq. apply IH in Hq as [Hs3 Hr3].
        split; [etrans; eassumption | intros; apply Hr3; lia]. }
      destruct t as [se|nm|c|c|t i|c]; try (eapply Hstep; exact H).
      * destruct (level + 1 <=? 1)%Z; [|eapply Hstep; exact H].
        destruct (new_elt reg (SName se)) as [iqPl|]; [|eapply Hstep; exact H].
        destruct (DecodeElement fuel iqPl d1 se) as [[iqPl' d2] [e|]] eqn:Hd;
          apply DecodeElement_reads in Hd as [Hs2 Hr2].
        -- injection H as <- <- <-.
           split; [etrans; eassumption | intros; apply Hr2; lia].
        -- apply IH in H as [Hs3 Hr3].
           pose proof (suffix_length _ _ Hs2).
           split; [etrans; [exact Hs3 | etrans; eassumption]
                  | intros; apply Hr3; lia].
      * destruct (decide (nm = End start)); [|eapply Hstep; exact H].
        injection H as <- <- <-. split; [exact Hs1 | discriminate].
    + injection H as <- <- <-. split; [exact Hs1 | congruence].
Qed.

(** The bound of [iqDecoder.decode] is never reached: on every input the
    result is the one of the loops without bound. *)
Lemma iqDecoder_decode_fuel (reg : gmap string GoType) (p : Decoder)
    (se : StartElement) :
  snd (iqDecoder_decode reg p se) <> Some OutOfFuel.
Proof.
  unfold iqDecoder_decode.
  destruct (unmarshalInterface _ IQ_zero p se) as [[iq d'] r] eqn:Hu.
  apply (unmarshalInterface_reads _ True) in Hu as [_ Hr]; [now apply Hr|].
  intros d0 v1 d1 r1 Hd0 Hf. unfold IQ_UnmarshalXML in Hf.
  apply IQ_loop_reads in Hf as [Hs Hr].
  split; [exact Hs | intros _; apply Hr; rewrite Hd0; unfold enough_fuel; lia].
Qed.

(** Nor are the bounds of [xml.Unmarshal] into an [Err] or a [Node]. *)
Lemma find_start_reads (fuel : nat) :
  forall d d1 r,
    find_start fuel d = (d1, r) ->
    input d1 `suffix_of` input d /\
    (length (input d) + 1 <= fuel -> r <> inr OutOfFuel).
Proof.
  induction fuel as [|fuel IH]; intros d d1 r H.
  - injection H as <- <-. split; [reflexivity | lia].
  - cbn [find_start] in H.
    destruct (Token_ d) as [d0 [t|e]] eqn:Ht;
      apply Token_reads in Ht as (Hs1 & Hne & Hrt).
    + destruct (Hrt t eq_refl) as (rt & Hin & _).
      apply (f_equal (@length _)) in Hin. cbn [length] in Hin.
      destruct t as [se|nm|c|c|t i|c];
        try (apply IH in H as [Hs3 Hr3];
             split; [etrans; eassumption | intros; apply Hr3; lia]).
      injection H as <- <-. split; [exact Hs1 | discriminate].
    + injection H as <- <-.
      split; [exact Hs1 | intros _ E; injection E as ->; now apply Hne].
Qed.

Lemma Unmarshal_Err_fuel (input : list RawToken) :
  snd (Unmarshal_Err input) <> Some OutOfFuel.
Proof.
  unfold Unmarshal_Err.
  destruct (find_start _ _) as [d1 [se|e]] eqn:Hf;
    apply find_start_reads in Hf as [Hs Hr]; cbn [xml.input] in Hs, Hr.
  - destruct (unmarshalInterface _ Err_zero d1 se) as [[x d'] r] eqn:Hu.
    apply (unmarshalInterface_reads _ True) in Hu as [_ Hr']; [now apply Hr'|].
    intros d0 v1 d2 r1 Hd0 Hrun. unfold Err_UnmarshalXML in Hrun.
    apply Err_loop_reads in Hrun as [Hs' Hr'].
    pose proof (suffix_length _ _ Hs).
    split; [exact Hs' | intros _; apply Hr'; rewrite Hd0; unfold enough_fuel; lia].
  - cbn [snd]. intros E. injection E as ->. apply Hr; [unfold enough_fuel; lia | reflexivity].
Qed.

Lemma Unmarshal_Node_fuel (input : list RawToken) :
  snd (Unmarshal_Node input) <> Some OutOfFuel.
Proof.
  unfold Unmarshal_Node.
  destruct (find_start _ _) as [d1 [se|e]] eqn:Hf;
    apply find_start_reads in Hf as [Hs Hr]; cbn [xml.input] in Hs, Hr.
  - destruct (unmarshalInterface _ Node_zero d1 se) as [[x d'] r] eqn:Hu.
    apply (unmarshalInterface_reads _ True) in Hu as [_ Hr']; [now apply Hr'|].
    intros d0 v1 d2 r1 Hd0 Hrun.
    apply (proj1 (Node_UnmarshalXML_reads _)) in Hrun as [Hs' Hr'].
    pose proof (suffix_length _ _ Hs).
    split; [exact Hs' | intros _; apply Hr'; rewrite Hd0; unfold enough_fuel; lia].
  - cbn [snd]. intros E. injection E as ->. apply Hr; [unfold enough_fuel; lia | reflexivity].
Qed.

(** ** When the token loops return without error *)

Lemma IQ_loop_nil (reg : gmap string GoType) (fuel : nat) :
  forall (level : Z) (iq : IQ) (d : Decoder) (start : StartElement)
         (iq' : IQ) (d' : Decoder),
    IQ_loop fuel reg level iq d start = (iq', d', None) ->
    exists (read : list RawToken) (last : RawToken),
      input d = read ++ last :: input d' /\ tok last = TEnd (End start).
Proof.
  induction fuel as [|fuel IH]; intros level iq d start iq' d' H; [discriminate H|].
  cbn [IQ_loop] in H.
  destruct (Token_ d) as [d1 [t|e]] eqn:Ht; [|discriminate H].
  apply Token_reads in Ht as (_ & _ & Hrt).
  destruct (Hrt t eq_refl) as (rt & Hin & Htok).
  assert (Hstep : forall level iq,
             IQ_loop fuel reg level iq d1 start = (iq', d', None) ->
             exists read last,
               input d = read ++ last :: input d' /\ tok last = TEnd (End start)).
  { intros l q Hq. apply IH in Hq as (read & last & Hq & Hl).
    exists (rt :: read), last. rewrite Hin, Hq. split; [reflexivity | exact Hl]. }
  destruct t as [se|n|c|c|t i|c]; try (eapply Hstep; exact H).
  - destruct (level + 1 <=? 1)%Z; [|eapply Hstep; exact H].
    destruct (new_elt reg (SName se)) as [iqPl|]; [|eapply Hstep; exact H].
    destruct (DecodeElement fuel iqPl d1 se) as [[iqPl' d2] [e|]] eqn:Hd;
      [discriminate H|].
    apply DecodeElement_reads in Hd as [[pre Hpre] _].
    apply IH in H as (read & last & Hq & Hl).
    exists (rt :: pre ++ read), last. rewrite Hin, Hpre, Hq.
    split; [cbn [app]; now rewrite app_assoc | exact Hl].
  - destruct (decide (n = End start)) as [->|_]; [|eapply Hstep; exact H].
    injection H as _ <-. exists [], rt. split; [exact Hin | exact Htok].
Qed.

(** X18: [IQ.UnmarshalXML] returns without error only when the token it
    read last is an end tag with the name of its start tag: what it took
    off the input is a run of tokens that ends with such a tag. *)
Theorem IQ_UnmarshalXML_nil (fuel : nat) (reg : gmap string GoType) (iq : IQ)
    (d : Decoder) (start : StartElement) (iq' : IQ) (d' : Decoder) :
  IQ_UnmarshalXML fuel reg iq d start = (iq', d', None) ->
  exists (read : list RawToken) (last : RawToken),
    input d = read ++ last :: input d' /\ tok last = TEnd (End start).
Proof. unfold IQ_UnmarshalXML. apply IQ_loop_nil. Qed.

Lemma IQ_UnmarshalXML_nil_witness :
  exists (read : list RawToken) (last : RawToken),
    input (inside (SName two_start) two_children "</iq>"
             [mkRaw (TCharData "x") "x"] [] "<iq>")
    = read ++ last :: input (mkDecoder [mkRaw (TCharData "x") "x"] [] "<iq><a/><b/></iq>")
    /\ tok last = TEnd (End two_start).
Proof.
  apply (IQ_UnmarshalXML_nil 6 typeRegistry IQ_zero
           (inside (SName two_start) two_children "</iq>"
              [mkRaw (TCharData "x") "x"] [] "<iq>") two_start
           (mkIQ (mkName "" "iq") (mkPacketAttrs "" "" "" "" "")
                 [PNode (mkNode (mkName "" "a") [] "" [])] "" Err_zero)).
  reflexivity.
Defined.

Lemma Err_loop_nil (fuel : nat) :
  forall (x : Err) (d : Decoder) (start : StartElement) (x' : Err) (d' : Decoder),
    Err_loop fuel x d start = (x', d', None) ->
    exists (read : list RawToken) (last : RawToken),
      input d = read ++ last :: input d' /\ tok last = TEnd (End start).
Proof.
  induction fuel as [|fuel IH]; intros x d start x' d' H; [discriminate H|].
  cbn [Err_loop] in H.
  destruct (Token_ d) as [d1 [t|e]] eqn:Ht; [|discriminate H].
  apply Token_reads in Ht as (_ & _ & Hrt).
  destruct (Hrt t eq_refl) as (rt & Hin & Htok).
  assert (Hstep : forall x,
             Err_loop fuel x d1 start = (x', d', None) ->
             exists read last,
               input d = read ++ last :: input d' /\ tok last = TEnd (End start)).
  { intros q Hq. apply IH in Hq as (read & last & Hq & Hl).
    exists (rt :: read), last. rewrite Hin, Hq. split; [reflexivity | exact Hl]. }
  destruct t as [se|n|c|c|t i|c]; try (eapply Hstep; exact H).
  - destruct (unmarshalInterface (Node_UnmarshalXML fuel) Node_zero d1 se)
      as [[elt d2] [e|]] eqn:Hu; [discriminate H|].
    apply (unmarshalInterface_reads _ False) in Hu as [[pre Hpre] _].
    2:{ intros d0 v1 d3 r1 _ Hf.
        apply (proj1 (Node_UnmarshalXML_reads fuel)) in Hf as [Hs _].
        split; [exact Hs | intros []]. }
    apply IH in H as (read & last & Hq & Hl).
    exists (rt :: pre ++ read), last. rewrite Hin, Hpre, Hq.
    split; [cbn [app]; now rewrite app_assoc | exact Hl].
  - destruct (decide (n = End start)) as [->|_]; [|eapply Hstep; exact H].
    injection H as _ <-. exists [], rt. split; [exact Hin | exact Htok].
Qed.

(** X19: [Err.UnmarshalXML] returns without error only when the token it
    read last is an end tag with the name of its start tag: what it took
    off the input is a run of tokens that ends with such a tag. *)
Theorem Err_UnmarshalXML_nil (fuel : nat) (x : Err) (d : Decoder)
    (start : StartElement) (x' : Err) (d' : Decoder) :
  Err_UnmarshalXML fuel x d start = (x', d', None) ->
  exists (read : list RawToken) (last : RawToken),
    input d = read ++ last :: input d' /\ tok last = TEnd (End start).
Proof. unfold Err_UnmarshalXML. apply Err_loop_nil. Qed.

Lemma Err_UnmarshalXML_nil_witness :
  exists (read : list RawToken) (last : RawToken),
    input (inside (SName scenarioB_error_start) [scenarioB_reason] "</error>"
             [mkRaw (TCharData "x") "x"] [] "")
    = read ++ last :: [mkRaw (TCharData "x") "x"]
    /\ tok last = TEnd (End scenarioB_error_start).
Proof.
  apply (Err_UnmarshalXML_nil 4 Err_zero
           (inside (SName scenarioB_error_start) [scenarioB_reason] "</error>"
              [mkRaw (TCharData "x") "x"] [] "")
           scenarioB_error_start
           (mkErr (mkName "" "error") 404 "cancel" "item-not-found" "")
           (mkDecoder [mkRaw (TCharData "x") "x"] []
              (raws (tokens scenarioB_reason) ++ "</error>"))).
  reflexivity.
Defined.

(** ** An element named like the iq element, inside it *)

(** The loop of [IQ.UnmarshalXML] up to the end of the first child
    element, with more input behind it. *)
Lemma IQ_loop_first_child_prefix (reg : gmap string GoType) (f : nat) (iq : IQ)
    (start st : StartElement) (misc kids : list XML) (rs re' : string)
    (more : list RawToken) (nm : Name) (s : list stkItem) (sv : string)
    (p0 : IQPayload) :
  forallb (fun t => negb (is_elem t)) misc = true ->
  new_elt reg (SName st) = Some p0 ->
  accepts p0 st = true ->
  S (length (flat_map tokens kids)) < f ->
  IQ_loop (length (flat_map tokens misc) + S f) reg 0 iq
    (mkDecoder (flat_map tokens misc ++ tokens (Elem st rs kids re') ++ more)
               (StkStart nm :: s) sv) start =
  IQ_loop f reg 1 (AddPayload iq (decoded p0 st kids))
    (mkDecoder more (StkStart nm :: s)
       (sv ++ raws (flat_map tokens misc) ++ rs ++ raws (flat_map tokens kids) ++ re'))
    start.
Proof.
  intros Hmisc Hnew Hacc Hfuel.
  rewrite IQ_loop_misc by exact Hmisc.
  cbn [tokens app]. rewrite <- ?app_assoc. cbn [app].
  cbn [IQ_loop Token_ stk input tok raw saved].
  change (0 + 1 <=? 1)%Z with true. cbn [Z.add]. rewrite Hnew.
  change (mkDecoder (flat_map tokens kids ++ mkRaw (TEnd (SName st)) re' :: more)
            (StkStart (SName st) :: StkStart nm :: s)
            ((sv ++ raws (flat_map tokens misc)) ++ rs))
    with (inside (SName st) kids re' more (StkStart nm :: s)
            ((sv ++ raws (flat_map tokens misc)) ++ rs)).
  rewrite DecodeElement_elem by (try exact Hacc; lia).
  rewrite ?append_assoc. reflexivity.
Qed.

Lemma IQ_loop_same_name (reg : gmap string GoType) (fuel : nat) (iq : IQ)
    (iqstart st q : StartElement)
    (misc kids pre qkids post : list XML) (rs re' rsq req re : string)
    (rest : list RawToken) (s : list stkItem) (sv : string) (p0 : IQPayload) :
  SName q = SName iqstart ->
  forallb (fun t => negb (is_elem t)) misc = true ->
  existsb (mentions (SName iqstart)) pre = false ->
  existsb (mentions (SName iqstart)) qkids = false ->
  new_elt reg (SName st) = Some p0 ->
  accepts p0 st = true ->
  length (flat_map tokens
            (misc ++ Elem st rs kids re' :: pre ++ Elem q rsq qkids req :: post)) < fuel ->
  exists sv',
    IQ_loop fuel reg 0 iq
      (inside (SName iqstart)
         (misc ++ Elem st rs kids re' :: pre ++ Elem q rsq qkids req :: post)
         re rest s sv) iqstart
    = (AddPayload iq (decoded p0 st kids),
       mkDecoder (flat_map tokens post ++ mkRaw (TEnd (SName iqstart)) re :: rest)
                 (StkStart (SName iqstart) :: s) sv', None).
Proof.
  intros Hq Hmisc Hpre Hqkids Hnew Hacc Hfuel. unfold inside.
  rewrite !flat_map_app in Hfuel |- *. cbn [flat_map] in Hfuel |- *.
  rewrite !flat_map_app in Hfuel |- *. cbn [flat_map] in Hfuel |- *.
  rewrite !length_app in Hfuel. cbn [tokens length] in Hfuel.
  rewrite !length_app in Hfuel. cbn [length] in Hfuel.
  rewrite <- !app_assoc.
  replace fuel with (length (flat_map tokens misc) +
                     S (length (flat_map tokens pre) +
                        S (length (flat_map tokens qkids) +
                           S (fuel - length (flat_map tokens misc)
                                   - length (flat_map tokens pre)
                                   - length (flat_map tokens qkids) - 3))))
    by lia.
  rewrite (IQ_loop_first_child_prefix reg _ iq iqstart st misc kids rs re'
             _ (SName iqstart) s sv p0 Hmisc Hnew Hacc) by lia.
  rewrite (IQ_loop_skip reg iqstart (length (flat_map tokens pre)))
    by (try exact Hpre; lia).
  cbn [tokens app IQ_loop Token_ stk input tok raw saved].
  change (1 + 1 <=? 1)%Z with false. cbn [Z.add Pos.add].
  rewrite <- !app_assoc.
  rewrite (IQ_loop_skip reg iqstart (length (flat_map tokens qkids)))
    by (try exact Hqkids; lia).
  cbn [app IQ_loop Token_ stk input tok raw saved].
  destruct (decide (SName q = SName q)) as [_|N]; [|contradiction].
  unfold End. destruct (decide (SName q = SName iqstart)) as [_|N]; [|contradiction].
  eexists. reflexivity.
Qed.

(** X20: an element with the qualified name of the iq element itself,
    somewhere after the first child element, ends the loop of
    [IQ.UnmarshalXML] at its end tag; the rest of the iq element is left
    unread and [DecodeElement] reports that the element was not consumed. *)
Theorem iqDecoder_decode_same_name (iqstart st q : StartElement)
    (misc kids pre qkids post : list XML) (rs re' rsq req re : string)
    (rest : list RawToken) (s : list stkItem) (sv : string) :
  SName q = SName iqstart ->
  forallb (fun t => negb (is_elem t)) misc = true ->
  existsb (mentions (SName iqstart)) pre = false ->
  existsb (mentions (SName iqstart)) qkids = false ->
  exists iq d',
    iqDecoder_decode typeRegistry
      (inside (SName iqstart)
         (misc ++ Elem st rs kids re' :: pre ++ Elem q rsq qkids req :: post)
         re rest s sv)
      iqstart = (iq, d', Some NotConsumed) /\
    input d' = flat_map tokens post ++ mkRaw (TEnd (SName iqstart)) re :: rest /\
    length (Payload iq) = 1.
Proof.
  intros Hq Hmisc Hpre Hqkids.
  destruct (new_elt_typeRegistry st) as (p0 & Hnew & Hacc & _).
  unfold iqDecoder_decode, enough_fuel, unmarshalInterface, IQ_UnmarshalXML.
  cbn [inside stk input saved]. rewrite pushEOF_start.
  set (iq0 := fold_left IQ_attr (SAttr iqstart) _).
  set (body := misc ++ Elem st rs kids re' :: pre ++ Elem q rsq qkids req :: post).
  change (mkDecoder (flat_map tokens body ++ mkRaw (TEnd (SName iqstart)) re :: rest)
            (StkStart (SName iqstart) :: StkEOF :: s) sv)
    with (inside (SName iqstart) body re rest (StkEOF :: s) sv).
  destruct (IQ_loop_same_name typeRegistry
              (2 * length (flat_map tokens body ++
                           mkRaw (TEnd (SName iqstart)) re :: rest) + 2)
              iq0 iqstart st q misc kids pre qkids post rs re' rsq req re rest
              (StkEOF :: s) sv p0 Hq Hmisc Hpre Hqkids Hnew Hacc) as [sv' Hrun].
  { fold body. rewrite length_app. cbn [length]. lia. }
  fold body in Hrun. rewrite Hrun. cbn [popEOF stk input saved].
  eexists _, _. split; [reflexivity|]. split; [reflexivity|].
  cbn [AddPayload Payload]. subst iq0.
  rewrite length_app, fold_IQ_attr_Payload. reflexivity.
Qed.

Lemma iqDecoder_decode_same_name_witness :
  exists iq d',
    iqDecoder_decode typeRegistry
      (inside (SName two_start)
         ([] ++ Elem (mkStart (mkName "" "a") []) "<a/>" [] ""
             :: [] ++ Elem two_start "<iq>" [] "</iq>" :: two_children)
         "</iq>" [] [] "<iq>")
      two_start = (iq, d', Some NotConsumed) /\
    input d' = flat_map tokens two_children
               ++ mkRaw (TEnd (SName two_start)) "</iq>" :: [] /\
    length (Payload iq) = 1.
Proof.
  apply (iqDecoder_decode_same_name two_start (mkStart (mkName "" "a") []) two_start
           [] [] [] [] two_children "<a/>" "" "<iq>" "</iq>" "</iq>" [] [] "<iq>");
    reflexivity.
Defined.

(** ** A Node written and read again *)














(** A Node named [xmlns] in a namespace comes back without namespace. *)
Lemma Node_round_trip_xmlns :
  writable "" xmlns_node = false /\
  decode_encode_Node xmlns_node = Some (mkNode (mkName "" "xmlns") [] "" [], None).
Proof. split; reflexivity. Qed.

(** ** Registered and unregistered names *)

(** X22: a first child element whose name has no entry in the registry of
    [init] is kept as a Node with the element's name, its attributes other
    than those with the local name xmlns, the bytes of its content and the
    nodes of its child elements. *)
Theorem iqDecoder_decode_unregistered (iqstart st : StartElement)
    (misc kids tail : list XML) (rs re' re : string)
    (rest : list RawToken) (s : list stkItem) (sv : string) :
  typeRegistry !! payloadType (SName st) = None ->
  forallb (fun t => negb (is_elem t)) misc = true ->
  existsb (mentions (SName iqstart)) tail = false ->
  exists iq d',
    iqDecoder_decode typeRegistry
      (inside (SName iqstart) (misc ++ Elem st rs kids re' :: tail) re rest s sv)
      iqstart = (iq, d', None) /\
    input d' = rest /\
    Payload iq =
      [PNode (mkNode (SName st) (List.filter not_xmlns (SAttr st))
                     (raws (flat_map tokens kids)) (flat_map nodes_of kids))].
Proof.
  intros Hreg Hmisc Htail.
  apply (iqDecoder_decode_first_child typeRegistry iqstart st misc kids tail
           rs re' re rest s sv (PNode Node_zero) Hmisc Htail).
  - unfold new_elt. now rewrite Hreg.
  - reflexivity.
Qed.

Lemma iqDecoder_decode_unregistered_witness :
  exists iq d',
    iqDecoder_decode typeRegistry
      (inside (SName scenarioB_start) ([] ++ scenarioB_error :: []) "</iq>" [] []
              scenarioB_iq_raw)
      scenarioB_start = (iq, d', None) /\
    input d' = [] /\
    Payload iq =
      [PNode (mkNode (SName scenarioB_error_start)
                     (List.filter not_xmlns (SAttr scenarioB_error_start))
                     (raws (flat_map tokens [scenarioB_reason]))
                     (flat_map nodes_of [scenarioB_reason]))].
Proof.
  apply (iqDecoder_decode_unregistered scenarioB_start scenarioB_error_start
           [] [scenarioB_reason] []
           ("<error code=" ++ dq ++ "404" ++ dq ++ " type=" ++ dq ++ "cancel" ++ dq ++ ">")
           "</error>" "</iq>" [] [] scenarioB_iq_raw); reflexivity.
Defined.

(** X23: after [init] the registry resolves exactly four qualified names:
    query of disco#info to DiscoInfo, query of disco#items to DiscoItems,
    bind of xmpp-bind to BindBind and set of iot:control to ControlSet; no
    other name, whatever its namespace and local name, has an entry. *)
Theorem typeRegistry_entries (n : Name) (t : GoType) :
  typeRegistry !! payloadType n = Some t <->
  (n = mkName NSDiscoInfo "query" /\ t = TDiscoInfo) \/
  (n = mkName NSDiscoItems "query" /\ t = TDiscoItems) \/
  (n = mkName "urn:ietf:params:xml:ns:xmpp-bind" "bind" /\ t = TBindBind) \/
  (n = mkName "urn:xmpp:iot:control" "set" /\ t = TControlSet).
Proof.
  split; [apply typeRegistry_lookup|].
  intros [[-> ->]|[[-> ->]|[[-> ->]|[-> ->]]]]; reflexivity.
Qed.
